(** * BELLA-traccc: the field-grid sampler and the truth-fitting residual
    pipeline, embedded from the C++ sources

  - [WriteBfield] embeds [src/write_bfield.cpp]: the predicate
    [is_in_magnet] and the three nested [while] loops of [main].
    A C++ [double] is an IEEE 754 binary64 number, which is what Rocq's
    primitive [float] is, so the loops are run on the very numbers the
    program adds and compares.
  - [StdMap] is the part of [std::map] the residual code relies on.
  - [TruthFitting] embeds the event loop of
    [src/truth_fitting_momentum_residual.cpp].
  - [TelescopeSimulation] embeds the control skeleton of
    [src/telescope_simulation.cpp]. *)

From Stdlib Require Import String ZArith NArith List Bool Lia QArith Qabs Qpower Lqa
  Floats Sorted.
Import ListNotations.

Local Open Scope Z_scope.

(** [EXIT_SUCCESS] of <cstdlib>. *)
Definition EXIT_SUCCESS : Z := 0.

(** ** write_bfield.cpp *)

Module WriteBfield.

Local Open Scope float_scope.

(** [x >= c] of C++ on doubles; false as soon as one side is NaN. *)
Definition geb (a b : float) : bool := b <=? a.

(** [is_in_magnet], lines 15-22.  The literals [40.f], [50.f], ... are
    single-precision literals promoted to double; each of them is an
    integer and so is promoted exactly.  [std::abs] on a [double] is the
    floating-point absolute value. *)
Definition is_in_magnet (x y z : float) : bool :=
  let is_x_in_magnet :=
    (geb x 40 && (x <=? 50)) || (geb x 210 && (x <=? 220)) in
  let is_y_in_magnet := (abs y <=? 10) in
  let is_z_in_magnet := (abs z <=? 10) in
  is_x_in_magnet && is_y_in_magnet && is_z_in_magnet.

(** One line of [bfield.txt]: the six numbers streamed at lines 54-55.
    The decimal rendering done by [operator<<] is left out. *)
Record line : Type := mk_line {
  l_x : float; l_y : float; l_z : float;
  l_bx : float; l_by : float; l_bz : float
}.

Definition spacing : float := 10.
Definition start_x : float := -100.
Definition end_x : float := 1000.
Definition start_z : float := -500.
Definition end_z : float := 500.
Definition start_y : float := -500.
Definition end_y : float := 500.

(** The mutable variables of [main] and the output stream. *)
Record state : Type := mk_state {
  x : float; y : float; z : float;
  bfield_file : list line
}.

(** Lines 50-55: the line written for the current point ([by_] stands for
    the source's [by]); [0.5f] is promoted to double exactly. *)
Definition emit (x y z : float) : line :=
  let bx := 0 in
  let bz := 0 in
  let by_ := if is_in_magnet x y z then 0.5 else 0 in
  mk_line x y z bx by_ bz.

(** [while (z < end_z) { ...; z += spacing; }], lines 48-58. *)
Fixpoint while_z (fuel : nat) (s : state) : option state :=
  match fuel with
  | O => None
  | S fuel' =>
      if z s <? end_z then
        while_z fuel'
          (mk_state (x s) (y s) (z s + spacing)
             (bfield_file s ++ [emit (x s) (y s) (z s)]))
      else Some s
  end.

(** [while (y < end_y) { while (z ...) {...} y += spacing; z = start_z; }],
    lines 46-61. *)
Fixpoint while_y (fuel : nat) (s : state) : option state :=
  match fuel with
  | O => None
  | S fuel' =>
      if y s <? end_y then
        match while_z fuel' s with
        | None => None
        | Some s1 =>
            while_y fuel'
              (mk_state (x s1) (y s1 + spacing) start_z (bfield_file s1))
        end
      else Some s
  end.

(** The outer loop, lines 44-65. *)
Fixpoint while_x (fuel : nat) (s : state) : option state :=
  match fuel with
  | O => None
  | S fuel' =>
      if x s <? end_x then
        match while_y fuel' s with
        | None => None
        | Some s1 =>
            while_x fuel'
              (mk_state (x s1 + spacing) start_y start_z (bfield_file s1))
        end
      else Some s
  end.

(** [main]: the content of [bfield.txt] at [close] and the value
    returned, [return 1;] at line 68. *)
Definition main (fuel : nat) : option (list line * Z) :=
  match while_x fuel (mk_state start_x start_y start_z []) with
  | None => None
  | Some s => Some (bfield_file s, 1%Z)
  end.

(** *** The grid as the specification describes it *)

(** The double nearest to an integer (exact below 2^53). *)
Definition float_of_Z (n : Z) : float :=
  match n with
  | Z0 => 0
  | Zpos _ => of_uint63 (Uint63.of_Z n)
  | Zneg p => - of_uint63 (Uint63.of_Z (Zpos p))
  end.

(** Integer-indexed coordinates: [start + 10 * i] for [i < count]. *)
Definition grid_axis (start : Z) (count : nat) : list float :=
  map (fun i => float_of_Z (start + 10 * Z.of_nat i)%Z) (seq 0 count).

Definition grid_xs : list float := grid_axis (-100) 110.
Definition grid_ys : list float := grid_axis (-500) 100.
Definition grid_zs : list float := grid_axis (-500) 100.

(** x-major, y-mid, z-minor enumeration of the grid. *)
Definition grid_lines : list line :=
  flat_map (fun xv =>
    flat_map (fun yv => map (emit xv yv) grid_zs) grid_ys) grid_xs.

(** The exact rational value of a finite double. *)
Definition SF2Q (f : spec_float) : option Q :=
  match f with
  | S754_zero _ => Some 0%Q
  | S754_finite s m e =>
      Some (inject_Z (cond_Zopp s (Zpos m)) * Qpower 2 e)%Q
  | _ => None
  end.

Definition value (f : float) : option Q := SF2Q (Prim2SF f).

(** The field-assignment rule in the specification's words, on exact
    values. *)
Definition inside_x (x : Q) : bool :=
  (Qle_bool 40 x && Qle_bool x 50) || (Qle_bool 210 x && Qle_bool x 220).
Definition inside_t (t : Q) : bool := Qle_bool (Qabs t) 10.
Definition inside_magnet (x y z : Q) : bool :=
  inside_x x && inside_t y && inside_t z.

(** *** Coordinates visited by one axis *)

(** The [n] values a coordinate takes from [v] on under [+= spacing]. *)
Fixpoint axis (n : nat) (v : float) : list float :=
  match n with
  | O => []
  | S n' => v :: axis n' (v + spacing)
  end.

(** The coordinate after [n] increments. *)
Fixpoint advance (n : nat) (v : float) : float :=
  match n with
  | O => v
  | S n' => advance n' (v + spacing)
  end.

(** [true] when every element is [<] its successor (so no two are equal
    and none is NaN). *)
Fixpoint strictly_increasing (l : list float) : bool :=
  match l with
  | a :: (b :: _) as tl => (a <? b) && strictly_increasing tl
  | _ => true
  end.

(** The two factors of [is_in_magnet]: the test on x and the test shared by
    y and z. *)
Definition x_in_magnet (v : float) : bool :=
  (geb v 40 && (v <=? 50)) || (geb v 210 && (v <=? 220)).
Definition t_in_magnet (v : float) : bool := abs v <=? 10.

(** The field vector of a line. *)
Definition field_of (l : line) : float * float * float :=
  (l_bx l, l_by l, l_bz l).

(** A written line obeys the field-assignment rule: its coordinates are
    finite numbers, and its field is (0, 0.5, 0) exactly when their values
    are inside the magnet, (0, 0, 0) otherwise. *)
Definition obeys_rule (l : line) : Prop :=
  exists xq yq zq,
    value (l_x l) = Some xq /\ value (l_y l) = Some yq /\
    value (l_z l) = Some zq /\
    (field_of l = (0, 0.5, 0) <-> inside_magnet xq yq zq = true) /\
    (inside_magnet xq yq zq = false -> field_of l = (0, 0, 0)).

(** Agreement of a float test with its rational counterpart at one
    coordinate. *)
Definition agrees (ftest : float -> bool) (qtest : Q -> bool) (v : float)
  : bool :=
  match value v with
  | Some q => Bool.eqb (ftest v) (qtest q)
  | None => false
  end.

(** The grid points at which the sampler writes a non-zero field, in file
    order. *)
Definition magnet_lines : list line :=
  flat_map (fun xv =>
    flat_map (fun yv => map (emit xv yv) [-10; 0; 10]) [-10; 0; 10])
    [40; 50; 210; 220].

(** [true] on the lines whose field is not zero. *)
Definition magnetised (l : line) : bool := negb (l_by l =? 0).

(** The significand of a finite double brought to the least exponent of
    the format, -1074: the value of the double is [Zval] times 2^-1074. *)
Definition scaled (m : positive) (e : Z) : Z := (Zpos m * 2 ^ (e + 1074))%Z.

Definition Zval (f : spec_float) : Z :=
  match f with
  | S754_finite s m e => cond_Zopp s (scaled m e)
  | _ => 0%Z
  end.

(** [c] is a finite double whose exact value is the rational [cq]. *)
Definition exactly (c : float) (cq : Q) : bool :=
  match value c with
  | Some q => Qeq_bool q cq
  | None => false
  end.

(** *** Facts about the model *)

Section ListFacts.
Context {A B : Type}.

Lemma length_flat_map_const (f : A -> list B) (k : nat) (l : list A) :
  (forall a, length (f a) = k) ->
  length (flat_map f l) = (length l * k)%nat.
Proof.
  intros Hk. induction l as [|a l IH]; cbn [flat_map length].
  - reflexivity.
  - rewrite length_app, Hk, IH. reflexivity.
Qed.

Lemma Forall_flat_map_intro (P : B -> Prop) (f : A -> list B) (l : list A) :
  (forall a, In a l -> Forall P (f a)) -> Forall P (flat_map f l).
Proof.
  intros H. induction l as [|a l IH]; cbn [flat_map].
  - constructor.
  - apply Forall_app. split.
    + apply H. now left.
    + apply IH. intros b Hb. apply H. now right.
Qed.
End ListFacts.

(** The coordinates reached by repeated addition are the integer-indexed
    ones: every intermediate sum is an integer below 2^53, so no addition
    rounds. *)
Lemma axis_x_exact : axis 110 start_x = grid_xs /\ advance 110 start_x = end_x.
Proof. split; vm_compute; reflexivity. Qed.

Lemma axis_y_exact : axis 100 start_y = grid_ys /\ advance 100 start_y = end_y.
Proof. split; vm_compute; reflexivity. Qed.

Lemma axis_z_exact : axis 100 start_z = grid_zs /\ advance 100 start_z = end_z.
Proof. split; vm_compute; reflexivity. Qed.

(** A run of the inner loop that passes its test [n] times. *)
Lemma while_z_run (n : nat) : forall fuel s,
  (n < fuel)%nat ->
  forallb (fun v => v <? end_z) (axis n (z s)) = true ->
  (advance n (z s) <? end_z) = false ->
  while_z fuel s =
  Some (mk_state (x s) (y s) (advance n (z s))
          (bfield_file s ++ map (emit (x s) (y s)) (axis n (z s)))).
Proof.
  induction n as [|n IH]; intros fuel s Hfuel Hin Hout;
    (destruct fuel as [|fuel]; [lia|]); cbn [while_z].
  - cbn [advance] in Hout. rewrite Hout. cbn [axis advance map].
    rewrite app_nil_r. destruct s; reflexivity.
  - cbn [axis forallb] in Hin. apply andb_prop in Hin as [Hhd Htl].
    rewrite Hhd. rewrite IH; cbn [x y z bfield_file]; try assumption; [|lia].
    cbn [axis advance map]. rewrite <- app_assoc. reflexivity.
Qed.

Lemma while_z_row fuel xv yv file :
  (100 < fuel)%nat ->
  while_z fuel (mk_state xv yv start_z file) =
  Some (mk_state xv yv end_z (file ++ map (emit xv yv) grid_zs)).
Proof.
  intros Hfuel. rewrite (while_z_run 100); cbn [x y z bfield_file].
  - destruct axis_z_exact as [-> ->]. reflexivity.
  - exact Hfuel.
  - vm_compute; reflexivity.
  - vm_compute; reflexivity.
Qed.

(** A run of the middle loop that passes its test [n] times; [z] is
    [start_z] whenever the test of the middle loop is evaluated. *)
Lemma while_y_run (n : nat) : forall fuel s,
  (n + 101 < fuel)%nat ->
  z s = start_z ->
  forallb (fun v => v <? end_y) (axis n (y s)) = true ->
  (advance n (y s) <? end_y) = false ->
  while_y fuel s =
  Some (mk_state (x s) (advance n (y s)) start_z
          (bfield_file s ++
           flat_map (fun yv => map (emit (x s) yv) grid_zs) (axis n (y s)))).
Proof.
  induction n as [|n IH]; intros fuel s Hfuel Hz Hin Hout;
    (destruct fuel as [|fuel]; [lia|]); cbn [while_y].
  - cbn [advance] in Hout. rewrite Hout. cbn [axis advance flat_map].
    rewrite app_nil_r, <- Hz. destruct s; reflexivity.
  - cbn [axis forallb] in Hin. apply andb_prop in Hin as [Hhd Htl].
    rewrite Hhd. destruct s as [xv yv zv file]; cbn [x y z bfield_file] in *.
    subst zv. rewrite while_z_row by lia.
    rewrite IH; cbn [x y z bfield_file]; try assumption; try reflexivity; [|lia].
    cbn [axis advance flat_map]. rewrite <- app_assoc. reflexivity.
Qed.

Lemma while_y_slab fuel xv file :
  (201 < fuel)%nat ->
  while_y fuel (mk_state xv start_y start_z file) =
  Some (mk_state xv end_y start_z
          (file ++ flat_map (fun yv => map (emit xv yv) grid_zs) grid_ys)).
Proof.
  intros Hfuel. rewrite (while_y_run 100); cbn [x y z bfield_file].
  - destruct axis_y_exact as [-> ->]. reflexivity.
  - lia.
  - reflexivity.
  - vm_compute; reflexivity.
  - vm_compute; reflexivity.
Qed.

(** A run of the outer loop that passes its test [n] times. *)
Lemma while_x_run (n : nat) : forall fuel s,
  (n + 202 < fuel)%nat ->
  y s = start_y -> z s = start_z ->
  forallb (fun v => v <? end_x) (axis n (x s)) = true ->
  (advance n (x s) <? end_x) = false ->
  while_x fuel s =
  Some (mk_state (advance n (x s)) start_y start_z
          (bfield_file s ++
           flat_map (fun xv =>
             flat_map (fun yv => map (emit xv yv) grid_zs) grid_ys)
             (axis n (x s)))).
Proof.
  induction n as [|n IH]; intros fuel s Hfuel Hy Hz Hin Hout;
    (destruct fuel as [|fuel]; [lia|]); cbn [while_x].
  - cbn [advance] in Hout. rewrite Hout. cbn [axis advance flat_map].
    rewrite app_nil_r, <- Hy, <- Hz. destruct s; reflexivity.
  - cbn [axis forallb] in Hin. apply andb_prop in Hin as [Hhd Htl].
    rewrite Hhd. destruct s as [xv yv zv file]; cbn [x y z bfield_file] in *.
    subst yv zv. rewrite while_y_slab by lia.
    rewrite IH; cbn [x y z bfield_file]; try assumption; try reflexivity; [|lia].
    cbn [axis advance flat_map]. rewrite <- app_assoc. reflexivity.
Qed.

(** With enough fuel [main] returns: it has written the grid in x-major,
    y-mid, z-minor order and its return value is 1. *)
Lemma main_run fuel :
  (313 <= fuel)%nat -> main fuel = Some (grid_lines, 1%Z).
Proof.
  intros Hfuel. unfold main.
  rewrite (while_x_run 110); cbn [x y z bfield_file bfield_file].
  - destruct axis_x_exact as [-> _]. reflexivity.
  - lia.
  - reflexivity.
  - reflexivity.
  - vm_compute; reflexivity.
  - vm_compute; reflexivity.
Qed.

Lemma length_grid_axis start count : length (grid_axis start count) = count.
Proof. unfold grid_axis. rewrite length_map, length_seq. reflexivity. Qed.

Lemma length_grid_lines : Z.of_nat (length grid_lines) = 1100000%Z.
Proof.
  unfold grid_lines.
  rewrite (length_flat_map_const _ (100 * 100)%nat).
  - unfold grid_xs. rewrite length_grid_axis.
    rewrite !Nat2Z.inj_mul. reflexivity.
  - intros xv. rewrite (length_flat_map_const _ 100%nat).
    + unfold grid_ys. rewrite length_grid_axis. reflexivity.
    + intros yv. rewrite length_map. unfold grid_zs.
      apply length_grid_axis.
Qed.

Lemma is_in_magnet_factors xv yv zv :
  is_in_magnet xv yv zv = x_in_magnet xv && t_in_magnet yv && t_in_magnet zv.
Proof. reflexivity. Qed.

Lemma agrees_elim ftest qtest l v :
  forallb (agrees ftest qtest) l = true -> In v l ->
  exists q, value v = Some q /\ ftest v = qtest q.
Proof.
  intros Hall Hin. rewrite forallb_forall in Hall. specialize (Hall v Hin).
  unfold agrees in Hall. destruct (value v) as [q|]; [|discriminate].
  exists q. split; [reflexivity|]. now apply Bool.eqb_prop.
Qed.

Lemma half_not_zero : 0.5 <> 0.
Proof.
  intros H. apply (f_equal Prim2SF) in H. vm_compute in H. discriminate.
Qed.

Lemma emit_obeys_rule xv yv zv :
  In xv grid_xs -> In yv grid_ys -> In zv grid_zs ->
  obeys_rule (emit xv yv zv).
Proof.
  intros Hx Hy Hz.
  destruct (agrees_elim x_in_magnet inside_x grid_xs xv) as (xq & Vx & Ex);
    [vm_compute; reflexivity | exact Hx |].
  destruct (agrees_elim t_in_magnet inside_t grid_ys yv) as (yq & Vy & Ey);
    [vm_compute; reflexivity | exact Hy |].
  destruct (agrees_elim t_in_magnet inside_t grid_zs zv) as (zq & Vz & Ez);
    [vm_compute; reflexivity | exact Hz |].
  exists xq, yq, zq. unfold emit, field_of; cbn [l_x l_y l_z l_bx l_by l_bz].
  rewrite is_in_magnet_factors, Ex, Ey, Ez. fold (inside_magnet xq yq zq).
  repeat split; try assumption.
  - destruct (inside_magnet xq yq zq); [reflexivity|].
    intros H. apply (f_equal (fun t => snd (fst t))) in H.
    cbn [fst snd] in H. symmetry in H. now apply half_not_zero in H.
  - intros ->. reflexivity.
  - intros ->. reflexivity.
Qed.

Lemma grid_lines_obey_rule : Forall obeys_rule grid_lines.
Proof.
  unfold grid_lines.
  apply Forall_flat_map_intro. intros xv Hx.
  apply Forall_flat_map_intro. intros yv Hy.
  apply Forall_forall. intros l Hl. apply in_map_iff in Hl as (zv & <- & Hz).
  now apply emit_obeys_rule.
Qed.

Lemma abs_opp (v : float) : abs (- v) = abs v.
Proof.
  apply Prim2SF_inj. rewrite !abs_spec, opp_spec.
  destruct (Prim2SF v); reflexivity.
Qed.

(** C1: with enough fuel the sampler returns, and the file it has written
    holds exactly 1,100,000 lines: 110 strictly increasing x values times
    100 y values times 100 z values, the very lines an integer-indexed
    enumeration of the grid gives, although the coordinates are advanced
    by repeated addition of the spacing. *)
Theorem grid_sample_count (fuel : nat) (Hfuel : (313 <= fuel)%nat) :
  exists file,
    main fuel = Some (file, 1%Z) /\
    file = grid_lines /\
    Z.of_nat (length file) = 1100000%Z /\
    length grid_xs = 110%nat /\ strictly_increasing grid_xs = true /\
    length grid_ys = 100%nat /\ length grid_zs = 100%nat.
Proof.
  exists grid_lines. split; [now apply main_run|].
  split; [reflexivity|]. split; [exact length_grid_lines|].
  split; [apply length_grid_axis|]. split; [vm_compute; reflexivity|].
  split; apply length_grid_axis.
Qed.

Lemma grid_sample_count_witness :
  (313 <= 320)%nat /\
  exists file,
    main 320 = Some (file, 1%Z) /\
    file = grid_lines /\
    Z.of_nat (length file) = 1100000%Z /\
    length grid_xs = 110%nat /\ strictly_increasing grid_xs = true /\
    length grid_ys = 100%nat /\ length grid_zs = 100%nat.
Proof. split; [lia | apply (grid_sample_count 320); lia]. Defined.

(** C3: every line the sampler writes carries the field (0, 0.5, 0) if and
    only if the exact value of its x lies in [40, 50] or [210, 220] and
    |y| <= 10 and |z| <= 10, and (0, 0, 0) otherwise; the point (45, 0, 0)
    is inside the magnet and gets (0, 0.5, 0), the point (45, 11, 0) is
    outside and gets (0, 0, 0). *)
Theorem field_assignment_rule (fuel : nat) (Hfuel : (313 <= fuel)%nat) :
  (exists file, main fuel = Some (file, 1%Z) /\ Forall obeys_rule file) /\
  is_in_magnet 45 0 0 = true /\
  field_of (emit 45 0 0) = (0, 0.5, 0) /\
  is_in_magnet 45 11 0 = false /\
  field_of (emit 45 11 0) = (0, 0, 0).
Proof.
  split.
  - exists grid_lines. split; [now apply main_run | exact grid_lines_obey_rule].
  - repeat split; vm_compute; reflexivity.
Qed.

Lemma field_assignment_rule_witness :
  (313 <= 320)%nat /\
  ((exists file, main 320 = Some (file, 1%Z) /\ Forall obeys_rule file) /\
   is_in_magnet 45 0 0 = true /\
   field_of (emit 45 0 0) = (0, 0.5, 0) /\
   is_in_magnet 45 11 0 = false /\
   field_of (emit 45 11 0) = (0, 0, 0)).
Proof. split; [lia | apply (field_assignment_rule 320); lia]. Defined.

(** C10: [is_in_magnet] is mirror-symmetric in y and in z, for every
    double (NaN and the infinities included). *)
Theorem is_in_magnet_mirror (xv yv zv : float) :
  is_in_magnet xv yv zv = is_in_magnet xv (- yv) zv /\
  is_in_magnet xv yv zv = is_in_magnet xv yv (- zv).
Proof.
  unfold is_in_magnet. rewrite !abs_opp. split; reflexivity.
Qed.

(** *** Further properties of the sampler *)

Lemma while_z_fuel_mono (fuel : nat) : forall fuel' s r,
  while_z fuel s = Some r -> (fuel <= fuel')%nat -> while_z fuel' s = Some r.
Proof.
  induction fuel as [|fuel IH]; intros fuel' s r Hrun Hle; [discriminate|].
  destruct fuel' as [|fuel']; [lia|]. cbn [while_z] in *.
  destruct (z s <? end_z); [|exact Hrun]. apply IH; [exact Hrun | lia].
Qed.

Lemma while_y_fuel_mono (fuel : nat) : forall fuel' s r,
  while_y fuel s = Some r -> (fuel <= fuel')%nat -> while_y fuel' s = Some r.
Proof.
  induction fuel as [|fuel IH]; intros fuel' s r Hrun Hle; [discriminate|].
  destruct fuel' as [|fuel']; [lia|]. cbn [while_y] in *.
  destruct (y s <? end_y); [|exact Hrun].
  destruct (while_z fuel s) as [s1|] eqn:Hz; [|discriminate].
  rewrite (while_z_fuel_mono fuel fuel' s s1 Hz) by lia.
  apply IH; [exact Hrun | lia].
Qed.

Lemma while_x_fuel_mono (fuel : nat) : forall fuel' s r,
  while_x fuel s = Some r -> (fuel <= fuel')%nat -> while_x fuel' s = Some r.
Proof.
  induction fuel as [|fuel IH]; intros fuel' s r Hrun Hle; [discriminate|].
  destruct fuel' as [|fuel']; [lia|]. cbn [while_x] in *.
  destruct (x s <? end_x); [|exact Hrun].
  destruct (while_y fuel s) as [s1|] eqn:Hy; [|discriminate].
  rewrite (while_y_fuel_mono fuel fuel' s s1 Hy) by lia.
  apply IH; [exact Hrun | lia].
Qed.

(** X1: the outcome of the sampler does not depend on the fuel given to
    the loops: a run that returns within its fuel has written the
    1,100,000-line grid and returns 1. *)
Theorem main_result_unique (fuel : nat) (file : list line) (code : Z)
    (Hrun : main fuel = Some (file, code)) :
  file = grid_lines /\ code = 1%Z /\ Z.of_nat (length file) = 1100000%Z.
Proof.
  assert (Hbig : main (Nat.max fuel 313) = Some (file, code)).
  { unfold main in *.
    destruct (while_x fuel _) as [s|] eqn:Hx; [|discriminate].
    rewrite (while_x_fuel_mono fuel (Nat.max fuel 313) _ s Hx) by lia.
    exact Hrun. }
  rewrite main_run in Hbig by lia.
  assert (Hfile : grid_lines = file) by congruence.
  assert (Hcode : 1%Z = code) by congruence.
  subst file code. split; [reflexivity|]. split; [reflexivity|].
  exact length_grid_lines.
Qed.

Lemma main_result_unique_witness :
  main 400 = Some (grid_lines, 1%Z) /\
  (grid_lines = grid_lines /\ 1%Z = 1%Z /\
   Z.of_nat (length grid_lines) = 1100000%Z).
Proof.
  split; [apply main_run; lia|].
  apply (main_result_unique 400 grid_lines 1%Z). apply main_run; lia.
Defined.

(** The inner loop, from any state: x and y are kept, the test is false on
    exit, and the file grows by lines written at that x and y. *)
Lemma while_z_frame (fuel : nat) : forall s s',
  while_z fuel s = Some s' ->
  x s' = x s /\ y s' = y s /\ (z s' <? end_z) = false /\
  exists suffix,
    bfield_file s' = bfield_file s ++ suffix /\
    Forall (fun l => l = emit (x s) (y s) (l_z l)) suffix.
Proof.
  induction fuel as [|fuel IH]; intros s s' Hrun; [discriminate|].
  cbn [while_z] in Hrun. destruct (z s <? end_z) eqn:Htest.
  - apply IH in Hrun. cbn [x y z bfield_file] in Hrun.
    destruct Hrun as (Hx & Hy & Hexit & suffix & Hfile & Hall).
    repeat split; try assumption.
    exists (emit (x s) (y s) (z s) :: suffix). split.
    + rewrite Hfile, <- app_assoc. reflexivity.
    + constructor; [reflexivity | exact Hall].
  - injection Hrun as <-. repeat split; try assumption.
    exists []. split; [now rewrite app_nil_r | constructor].
Qed.

Lemma while_y_frame (fuel : nat) : forall s s',
  while_y fuel s = Some s' ->
  x s' = x s /\ (y s' <? end_y) = false /\
  exists suffix,
    bfield_file s' = bfield_file s ++ suffix /\
    Forall (fun l => l = emit (x s) (l_y l) (l_z l)) suffix.
Proof.
  induction fuel as [|fuel IH]; intros s s' Hrun; [discriminate|].
  cbn [while_y] in Hrun. destruct (y s <? end_y) eqn:Htest.
  - destruct (while_z fuel s) as [s1|] eqn:Hz; [|discriminate].
    apply while_z_frame in Hz.
    destruct Hz as (Hx1 & Hy1 & _ & suffix1 & Hfile1 & Hall1).
    apply IH in Hrun. cbn [x y z bfield_file] in Hrun.
    destruct Hrun as (Hx & Hexit & suffix & Hfile & Hall).
    rewrite Hx1 in *. repeat split; try assumption.
    exists (suffix1 ++ suffix). split.
    + rewrite Hfile, Hfile1, <- app_assoc. reflexivity.
    + apply Forall_app. split; [|exact Hall].
      eapply Forall_impl; [|exact Hall1]. cbn. intros l Hl.
      rewrite Hl at 1. cbn [l_y l_z emit]. rewrite Hl at 2. reflexivity.
  - injection Hrun as <-. repeat split; try assumption.
    exists []. split; [now rewrite app_nil_r | constructor].
Qed.

(** X2: from any state of the variables (whatever doubles they hold) a run
    of the loop nest that returns has only appended to the file, every
    appended line pairs its own coordinates with the field
    (0, 0.5 or 0, 0) that [is_in_magnet] assigns to them, and the test of
    the outer loop is false on exit. *)
Theorem loops_only_append (fuel : nat) (s s' : state)
    (Hrun : while_x fuel s = Some s') :
  (x s' <? end_x) = false /\
  exists suffix,
    bfield_file s' = bfield_file s ++ suffix /\
    Forall (fun l =>
              field_of l =
              (0, if is_in_magnet (l_x l) (l_y l) (l_z l) then 0.5 else 0, 0))
           suffix.
Proof.
  revert s s' Hrun.
  induction fuel as [|fuel IH]; intros s s' Hrun; [discriminate|].
  cbn [while_x] in Hrun. destruct (x s <? end_x) eqn:Htest.
  - destruct (while_y fuel s) as [s1|] eqn:Hy; [|discriminate].
    apply while_y_frame in Hy.
    destruct Hy as (Hx1 & _ & suffix1 & Hfile1 & Hall1).
    apply IH in Hrun. cbn [x y z bfield_file] in Hrun.
    destruct Hrun as (Hexit & suffix & Hfile & Hall).
    split; [exact Hexit|].
    exists (suffix1 ++ suffix). split.
    + rewrite Hfile, Hfile1, <- app_assoc. reflexivity.
    + apply Forall_app. split; [|exact Hall].
      eapply Forall_impl; [|exact Hall1]. cbn. intros l Hl.
      rewrite Hl. reflexivity.
  - injection Hrun as <-. split; [exact Htest|].
    exists []. split; [now rewrite app_nil_r | constructor].
Qed.

Lemma loops_only_append_witness :
  while_x 10 (mk_state 990 490 480 []) =
    Some (mk_state 1000 (-500) (-500) [emit 990 490 480; emit 990 490 490]) /\
  ((1000 <? end_x) = false /\
   exists suffix,
     [emit 990 490 480; emit 990 490 490] = [] ++ suffix /\
     Forall (fun l =>
               field_of l =
               (0, if is_in_magnet (l_x l) (l_y l) (l_z l) then 0.5 else 0, 0))
            suffix).
Proof.
  split; [vm_compute; reflexivity|].
  apply (loops_only_append 10 (mk_state 990 490 480 [])
           (mk_state 1000 (-500) (-500)
              [emit 990 490 480; emit 990 490 490])).
  vm_compute; reflexivity.
Defined.

Lemma nth_error_flat_map_const {A B} (f : A -> list B) (n : nat)
    (Hlen : forall a, length (f a) = n) (l : list A) : forall i j,
  (j < n)%nat ->
  nth_error (flat_map f l) (i * n + j) =
  match nth_error l i with
  | Some a => nth_error (f a) j
  | None => None
  end.
Proof.
  induction l as [|a l IH]; intros i j Hj; cbn [flat_map].
  - destruct i; now rewrite nth_error_nil.
  - destruct i as [|i]; cbn [nth_error].
    + rewrite nth_error_app1 by (rewrite Hlen; exact Hj). reflexivity.
    + rewrite nth_error_app2 by (rewrite Hlen; lia).
      rewrite Hlen. replace (S i * n + j - n)%nat with (i * n + j)%nat by lia.
      now apply IH.
Qed.

Lemma nth_error_grid_axis start count i :
  (i < count)%nat ->
  nth_error (grid_axis start count) i =
  Some (float_of_Z (start + 10 * Z.of_nat i)).
Proof.
  intros Hi. unfold grid_axis.
  rewrite nth_error_map, nth_error_seq.
  apply Nat.ltb_lt in Hi. rewrite Hi. reflexivity.
Qed.

(** X3: the file is laid out x-major, y-mid, z-minor: line number
    (i * 100 + j) * 100 + k, counted from 0, is the sample at
    x = -100 + 10 i, y = -500 + 10 j, z = -500 + 10 k. *)
Theorem line_at_index (fuel i j k : nat)
    (Hfuel : (313 <= fuel)%nat)
    (Hi : (i < 110)%nat) (Hj : (j < 100)%nat) (Hk : (k < 100)%nat) :
  exists file,
    main fuel = Some (file, 1%Z) /\
    nth_error file ((i * 100 + j) * 100 + k) =
    Some (emit (float_of_Z (-100 + 10 * Z.of_nat i))
               (float_of_Z (-500 + 10 * Z.of_nat j))
               (float_of_Z (-500 + 10 * Z.of_nat k))).
Proof.
  exists grid_lines. split; [now apply main_run|]. unfold grid_lines.
  replace ((i * 100 + j) * 100 + k)%nat
    with (i * (100 * 100) + (j * 100 + k))%nat by lia.
  rewrite (nth_error_flat_map_const _ (100 * 100)%nat); [| |lia].
  - unfold grid_xs. rewrite nth_error_grid_axis by exact Hi.
    rewrite (nth_error_flat_map_const _ 100%nat); [| |exact Hk].
    + unfold grid_ys. rewrite nth_error_grid_axis by exact Hj.
      rewrite nth_error_map. unfold grid_zs.
      rewrite nth_error_grid_axis by exact Hk. reflexivity.
    + intros yv. rewrite length_map. apply length_grid_axis.
  - intros xv. rewrite (length_flat_map_const _ 100%nat).
    + unfold grid_ys. rewrite length_grid_axis. reflexivity.
    + intros yv. rewrite length_map. apply length_grid_axis.
Qed.

Lemma line_at_index_witness :
  (313 <= 320)%nat /\ (14 < 110)%nat /\ (50 < 100)%nat /\ (51 < 100)%nat /\
  exists file,
    main 320 = Some (file, 1%Z) /\
    nth_error file ((14 * 100 + 50) * 100 + 51) =
    Some (emit (float_of_Z (-100 + 10 * Z.of_nat 14))
               (float_of_Z (-500 + 10 * Z.of_nat 50))
               (float_of_Z (-500 + 10 * Z.of_nat 51))).
Proof.
  split; [lia|]. split; [lia|]. split; [lia|]. split; [lia|].
  apply (line_at_index 320 14 50 51); lia.
Defined.

(** X4: of the 1,100,000 lines written, exactly 36 carry a non-zero
    field: the samples with x in {40, 50, 210, 220} and y, z in
    {-10, 0, 10}, in file order, each with the field (0, 0.5, 0). *)
Theorem magnetised_samples (fuel : nat) (Hfuel : (313 <= fuel)%nat) :
  exists file,
    main fuel = Some (file, 1%Z) /\
    filter magnetised file = magnet_lines /\
    length magnet_lines = 36%nat /\
    Forall (fun l => field_of l = (0, 0.5, 0)) magnet_lines.
Proof.
  exists grid_lines. split; [now apply main_run|].
  split; [vm_compute; reflexivity|]. split; [reflexivity|].
  repeat constructor.
Qed.

Lemma magnetised_samples_witness :
  (313 <= 320)%nat /\
  exists file,
    main 320 = Some (file, 1%Z) /\
    filter magnetised file = magnet_lines /\
    length magnet_lines = 36%nat /\
    Forall (fun l => field_of l = (0, 0.5, 0)) magnet_lines.
Proof. split; [lia | apply (magnetised_samples 320); lia]. Defined.

(** *** The predicate on every double *)

Local Open Scope Z_scope.

Lemma digits2_pos_bounds m :
  2 ^ (Zpos (digits2_pos m) - 1) <= Zpos m < 2 ^ Zpos (digits2_pos m).
Proof.
  induction m as [m IH|m IH|]; cbn [digits2_pos].
  - rewrite Pos2Z.inj_succ.
    replace (Z.succ (Zpos (digits2_pos m)) - 1) with (Z.succ (Zpos (digits2_pos m) - 1)) by lia.
    rewrite !Z.pow_succ_r by lia. lia.
  - rewrite Pos2Z.inj_succ.
    replace (Z.succ (Zpos (digits2_pos m)) - 1) with (Z.succ (Zpos (digits2_pos m) - 1)) by lia.
    rewrite !Z.pow_succ_r by lia. lia.
  - cbn. lia.
Qed.

Lemma bounded_inv m e :
  bounded 53 1024 m e = true ->
  -1074 <= e /\ Zpos (digits2_pos m) <= 53 /\
  (e = -1074 \/ Zpos (digits2_pos m) = 53).
Proof.
  unfold bounded, canonical_mantissa, fexp, emin.
  rewrite andb_true_iff, Z.eqb_eq, Z.leb_le. lia.
Qed.

Lemma scaled_pos m e : bounded 53 1024 m e = true -> 0 < scaled m e.
Proof.
  intros H. apply bounded_inv in H as (He & _). unfold scaled.
  apply Z.mul_pos_pos; [lia|]. apply Z.pow_pos_nonneg; lia.
Qed.

Lemma scaled_lt m1 e1 m2 e2 :
  bounded 53 1024 m1 e1 = true -> bounded 53 1024 m2 e2 = true ->
  e1 < e2 -> scaled m1 e1 < scaled m2 e2.
Proof.
  intros H1 H2 Hlt.
  apply bounded_inv in H1 as (He1 & Hd1 & _).
  apply bounded_inv in H2 as (He2 & _ & Hd2).
  destruct Hd2 as [->|Hd2]; [lia|].
  pose proof (digits2_pos_bounds m1) as [_ Hm1].
  pose proof (digits2_pos_bounds m2) as [Hm2 _].
  rewrite Hd2 in Hm2.
  assert (Hm1' : Zpos m1 < 2 ^ 53).
  { eapply Z.lt_le_trans; [exact Hm1|]. apply Z.pow_le_mono_r; lia. }
  unfold scaled.
  replace (e2 + 1074) with ((e1 + 1074) + (e2 - e1)) by lia.
  rewrite (Z.pow_add_r 2 (e1 + 1074) (e2 - e1)) by lia.
  assert (HA : 0 < 2 ^ (e1 + 1074)) by (apply Z.pow_pos_nonneg; lia).
  assert (HB : 2 ^ 1 <= 2 ^ (e2 - e1)) by (apply Z.pow_le_mono_r; lia).
  change (2 ^ 1) with 2 in HB. change (53 - 1) with 52 in Hm2.
  change (2 ^ 52) with 4503599627370496 in Hm2.
  change (2 ^ 53) with 9007199254740992 in Hm1'.
  assert (HAB : 2 * 2 ^ (e1 + 1074) <= 2 ^ (e1 + 1074) * 2 ^ (e2 - e1)) by nia.
  assert (Hl : Zpos m1 * 2 ^ (e1 + 1074) < 9007199254740992 * 2 ^ (e1 + 1074))
    by (apply Z.mul_lt_mono_pos_r; lia).
  assert (Hr : 4503599627370496 * (2 ^ (e1 + 1074) * 2 ^ (e2 - e1))
               <= Zpos m2 * (2 ^ (e1 + 1074) * 2 ^ (e2 - e1)))
    by (apply Z.mul_le_mono_nonneg_r; lia).
  lia.
Qed.

Lemma canonical_compare m1 e1 m2 e2 :
  bounded 53 1024 m1 e1 = true -> bounded 53 1024 m2 e2 = true ->
  match e1 ?= e2 with
  | Lt => Lt
  | Gt => Gt
  | Eq => Pos.compare_cont Eq m1 m2
  end = (scaled m1 e1 ?= scaled m2 e2).
Proof.
  intros H1 H2. destruct (Z.compare_spec e1 e2) as [->|Hlt|Hgt].
  - unfold scaled.
    assert (HP : 0 < 2 ^ (e2 + 1074)).
    { apply bounded_inv in H2 as (He & _). apply Z.pow_pos_nonneg; lia. }
    change (Pos.compare_cont Eq m1 m2) with (Pos.compare m1 m2).
    destruct (Pos.compare_spec m1 m2) as [->|Hm|Hm]; symmetry.
    + apply Z.compare_refl.
    + apply Z.compare_lt_iff. apply Z.mul_lt_mono_pos_r; [exact HP | lia].
    + apply Z.compare_gt_iff. apply Z.mul_lt_mono_pos_r; [exact HP | lia].
  - symmetry. apply Z.compare_lt_iff. now apply scaled_lt.
  - symmetry. apply Z.compare_gt_iff. now apply scaled_lt.
Qed.

Lemma SFcompare_Zval f1 f2 q1 q2 :
  SpecFloat.valid_binary 53 1024 f1 = true -> SpecFloat.valid_binary 53 1024 f2 = true ->
  SF2Q f1 = Some q1 -> SF2Q f2 = Some q2 ->
  SFcompare f1 f2 = Some (Zval f1 ?= Zval f2).
Proof.
  intros V1 V2 Q1 Q2.
  destruct f1 as [s1|s1| |s1 m1 e1]; try discriminate;
  destruct f2 as [s2|s2| |s2 m2 e2]; try discriminate;
  cbn [SpecFloat.valid_binary SFcompare Zval] in *.
  - reflexivity.
  - pose proof (scaled_pos m2 e2 V2). destruct s2; cbn [cond_Zopp];
      f_equal; symmetry; [apply Z.compare_gt_iff | apply Z.compare_lt_iff]; lia.
  - pose proof (scaled_pos m1 e1 V1). destruct s1; cbn [cond_Zopp];
      f_equal; symmetry; [apply Z.compare_lt_iff | apply Z.compare_gt_iff]; lia.
  - pose proof (scaled_pos m1 e1 V1). pose proof (scaled_pos m2 e2 V2).
    f_equal. destruct s1, s2; cbn [cond_Zopp].
    + rewrite Z.compare_opp, <- (canonical_compare m2 e2 m1 e1 V2 V1).
      rewrite (Z.compare_antisym e1 e2).
      destruct (e1 ?= e2); cbn [CompOpp]; try reflexivity.
      rewrite Pos.compare_cont_antisym. reflexivity.
    + symmetry. apply Z.compare_lt_iff. lia.
    + symmetry. apply Z.compare_gt_iff. lia.
    + now apply canonical_compare.
Qed.

Local Open Scope Q_scope.

Lemma two_power_pos (e : Z) : 0 < Qpower 2 e.
Proof. now apply Qpower_0_lt. Qed.

Lemma SF2Q_Zval f q :
  SpecFloat.valid_binary 53 1024 f = true -> SF2Q f = Some q ->
  q == inject_Z (Zval f) * Qpower 2 (-1074).
Proof.
  intros V Hq. destruct f as [s|s| |s m e]; try discriminate;
    cbn [SF2Q Zval] in *; injection Hq as <-.
  - now rewrite Qmult_0_l.
  - apply bounded_inv in V as (He & _). unfold scaled.
    replace (cond_Zopp s (Z.pos m * 2 ^ (e + 1074)))
      with (cond_Zopp s (Z.pos m) * 2 ^ (e + 1074))%Z
      by (destruct s; cbn [cond_Zopp]; lia).
    rewrite inject_Z_mult, Zpower_Qpower by lia.
    rewrite <- Qmult_assoc, <- Qpower_plus by discriminate.
    replace (e + 1074 + -1074)%Z with e by lia. reflexivity.
Qed.

Lemma SFleb_exact f1 f2 q1 q2 :
  SpecFloat.valid_binary 53 1024 f1 = true ->
  SpecFloat.valid_binary 53 1024 f2 = true ->
  SF2Q f1 = Some q1 -> SF2Q f2 = Some q2 ->
  SFleb f1 f2 = Qle_bool q1 q2.
Proof.
  intros V1 V2 Q1 Q2. unfold SFleb.
  rewrite (SFcompare_Zval f1 f2 q1 q2 V1 V2 Q1 Q2).
  transitivity (Z.leb (Zval f1) (Zval f2)).
  { unfold Z.leb. now destruct (Zval f1 ?= Zval f2)%Z. }
  apply eq_true_iff_eq. rewrite Z.leb_le, Qle_bool_iff.
  rewrite (SF2Q_Zval f1 q1 V1 Q1), (SF2Q_Zval f2 q2 V2 Q2).
  rewrite Qmult_le_r by apply two_power_pos. now rewrite Zle_Qle.
Qed.

Local Open Scope float_scope.

Lemma leb_value (a b : float) (aq bq aq' bq' : Q) :
  value a = Some aq' -> value b = Some bq' -> (aq' == aq)%Q -> (bq' == bq)%Q ->
  (a <=? b) = Qle_bool aq bq.
Proof.
  intros Ha Hb Ea Eb. rewrite leb_spec.
  rewrite (SFleb_exact _ _ aq' bq' (Prim2SF_valid a) (Prim2SF_valid b) Ha Hb).
  now rewrite Ea, Eb.
Qed.

Lemma leb_const_l (c x : float) (cq xq : Q) :
  exactly c cq = true -> value x = Some xq -> (c <=? x) = Qle_bool cq xq.
Proof.
  unfold exactly. destruct (value c) as [q|] eqn:Hc; [|discriminate].
  intros Hq Hx. apply Qeq_bool_iff in Hq.
  now apply (leb_value c x cq xq q xq).
Qed.

Lemma leb_const_r (c x : float) (cq xq : Q) :
  exactly c cq = true -> value x = Some xq -> (x <=? c) = Qle_bool xq cq.
Proof.
  unfold exactly. destruct (value c) as [q|] eqn:Hc; [|discriminate].
  intros Hq Hx. apply Qeq_bool_iff in Hq.
  now apply (leb_value x c xq cq xq q).
Qed.

Lemma x_in_magnet_exact (v : float) :
  x_in_magnet v =
  match value v with
  | Some q => inside_x q
  | None => false
  end.
Proof.
  destruct (value v) as [q|] eqn:Hv.
  - unfold x_in_magnet, geb, inside_x.
    rewrite (leb_const_l 40 v 40 q eq_refl Hv),
            (leb_const_r 50 v 50 q eq_refl Hv),
            (leb_const_l 210 v 210 q eq_refl Hv),
            (leb_const_r 220 v 220 q eq_refl Hv).
    reflexivity.
  - unfold x_in_magnet, geb. rewrite !leb_spec. unfold value in Hv.
    destruct (Prim2SF v) as [s|[|]| |s m e]; try discriminate;
      vm_compute; reflexivity.
Qed.

Lemma value_abs (v : float) (q : Q) :
  value v = Some q -> exists q', value (abs v) = Some q' /\ (q' == Qabs q)%Q.
Proof.
  unfold value. rewrite abs_spec.
  destruct (Prim2SF v) as [s|s| |s m e]; try discriminate;
    cbn [SFabs SF2Q]; intros [= <-].
  - exists 0%Q. split; reflexivity.
  - eexists. split; [reflexivity|].
    rewrite Qabs_Qmult.
    rewrite (Qabs_pos (Qpower 2 e)) by (apply Qpower_0_le; discriminate).
    now destruct s.
Qed.

Lemma t_in_magnet_exact (v : float) :
  t_in_magnet v =
  match value v with
  | Some q => inside_t q
  | None => false
  end.
Proof.
  destruct (value v) as [q|] eqn:Hv.
  - destruct (value_abs v q Hv) as (q' & Hq' & Eq').
    unfold t_in_magnet, inside_t.
    rewrite (leb_const_r 10 (abs v) 10 q' eq_refl Hq').
    now rewrite Eq'.
  - unfold t_in_magnet. rewrite leb_spec, abs_spec. unfold value in Hv.
    destruct (Prim2SF v) as [s|s| |s m e]; try discriminate;
      vm_compute; reflexivity.
Qed.

(** X5: for every triple of doubles, [is_in_magnet] is true exactly when
    the three are finite and their exact values satisfy the rule: x in
    [40, 50] or [210, 220], |y| <= 10 and |z| <= 10; it is false as soon
    as one coordinate is NaN or an infinity. *)
Theorem is_in_magnet_exact (xv yv zv : float) :
  is_in_magnet xv yv zv =
  match value xv, value yv, value zv with
  | Some xq, Some yq, Some zq => inside_magnet xq yq zq
  | _, _, _ => false
  end.
Proof.
  rewrite is_in_magnet_factors.
  rewrite x_in_magnet_exact, !t_in_magnet_exact. unfold inside_magnet.
  destruct (value xv), (value yv), (value zv); cbn;
    rewrite ?andb_false_r; reflexivity.
Qed.

End WriteBfield.

(** ** std::map, as far as the residual program uses it *)

Module StdMap.

Section Map.
Variables (K V : Type).

(** The comparison object of the map ([std::less<K>], that is the key
    type's [operator<]). *)
Variable ltb : K -> K -> bool.

(** A [std::map<K, V>]: its entries in iteration order, which is the
    ascending order of the keys. *)
Definition t : Type := list (K * V).

(** Two keys are equivalent when neither is less than the other. *)
Definition equiv (a b : K) : bool := negb (ltb a b) && negb (ltb b a).

(** The class invariant: keys strictly ascending. *)
Definition sorted (m : t) : Prop :=
  StronglySorted (fun a b => ltb (fst a) (fst b) = true) m.

Definition size (m : t) : nat := length m.

(** [m.begin()], when it is not [m.end()]. *)
Definition begin (m : t) : option (K * V) := hd_error m.

(** [m.find(k)]. *)
Fixpoint find (k : K) (m : t) : option V :=
  match m with
  | [] => None
  | (k', v) :: m' => if equiv k k' then Some v else find k m'
  end.

(** [m[k] = f(m[k])], where [m[k]] value-initialises a missing entry:
    [f None] is [f] applied to the value-initialised [V]. *)
Fixpoint update (k : K) (f : option V -> V) (m : t) : t :=
  match m with
  | [] => [(k, f None)]
  | (k', v) :: m' =>
      if ltb k k' then (k, f None) :: m
      else if ltb k' k then (k', v) :: update k f m'
      else (k', f (Some v)) :: m'
  end.

Definition keys (m : t) : list K := map fst m.

(** The comparison is a strict weak ordering, as [std::map] requires. *)
Hypothesis ltb_irrefl : forall a, ltb a a = false.
Hypothesis ltb_trans :
  forall a b c, ltb a b = true -> ltb b c = true -> ltb a c = true.
Hypothesis ltb_cotrans :
  forall a b c, ltb a b = true -> ltb a c = true \/ ltb c b = true.

Lemma ltb_asym a b : ltb a b = true -> ltb b a = false.
Proof.
  intros Hab. destruct (ltb b a) eqn:Hba; [|reflexivity].
  rewrite <- (ltb_irrefl a). symmetry. now apply (ltb_trans a b a).
Qed.

Lemma update_keys k f m k' :
  In k' (keys (update k f m)) -> k' = k \/ In k' (keys m).
Proof.
  unfold keys. induction m as [|[k0 v0] m IH]; cbn [update].
  - cbn. intros [H|[]]. now left.
  - destruct (ltb k k0).
    + cbn. intros [H|H]; [now left | now right].
    + destruct (ltb k0 k).
      * cbn. intros [H|H]; [right; now left|].
        destruct (IH H) as [E|E]; [now left | right; now right].
      * cbn. intros H. now right.
Qed.

Lemma sorted_update k f m : sorted m -> sorted (update k f m).
Proof.
  unfold sorted. induction m as [|[k0 v0] m IH]; cbn [update]; intros Hs.
  - repeat constructor.
  - apply StronglySorted_inv in Hs as [Hs Hall].
    destruct (ltb k k0) eqn:Hlt; [|destruct (ltb k0 k) eqn:Hgt].
    + constructor; [now constructor|].
      constructor; [exact Hlt|].
      rewrite Forall_forall in Hall |- *. intros e He. cbn [fst].
      apply (ltb_trans k k0); [exact Hlt | now apply Hall].
    + constructor; [now apply IH|].
      rewrite Forall_forall in Hall |- *. intros [k1 v1] He. cbn [fst].
      destruct (update_keys k f m k1) as [->|Hin].
      * unfold keys. apply in_map_iff. now exists (k1, v1).
      * exact Hgt.
      * unfold keys in Hin. apply in_map_iff in Hin as ([k2 v2] & E & Hin).
        cbn in E. subst k2. now apply (Hall (k1, v2)).
    + constructor; [exact Hs | exact Hall].
Qed.

(** The first entry of a map has the least key. *)
Lemma begin_least m k v :
  sorted m -> begin m = Some (k, v) ->
  forall k', In k' (keys m) -> ltb k' k = false.
Proof.
  unfold sorted, begin, keys. destruct m as [|[k0 v0] m]; [discriminate|].
  cbn [hd_error]. intros Hs [= -> ->] k' Hin.
  apply StronglySorted_inv in Hs as [_ Hall]. cbn in Hin.
  destruct Hin as [<-|Hin]; [apply ltb_irrefl|].
  apply in_map_iff in Hin as ([k1 v1] & E & Hin). cbn in E. subst k1.
  rewrite Forall_forall in Hall. apply ltb_asym. now apply (Hall (k', v1)).
Qed.

(** After [m[k] = ...] the map has a key equivalent to [k]. *)
Lemma update_has_key k f m :
  exists k', In k' (keys (update k f m)) /\ equiv k k' = true.
Proof.
  unfold keys, equiv. induction m as [|[k0 v0] m IH]; cbn [update].
  - exists k. cbn. rewrite ltb_irrefl. split; [now left | reflexivity].
  - destruct (ltb k k0) eqn:Hlt; [|destruct (ltb k0 k) eqn:Hgt].
    + exists k. cbn. rewrite ltb_irrefl. split; [now left | reflexivity].
    + destruct IH as (k' & Hin & He). exists k'. split; [now right | exact He].
    + exists k0. cbn. rewrite Hlt, Hgt. split; [now left | reflexivity].
Qed.

(** [m[k] = ...] removes no key. *)
Lemma update_keeps_keys k f m k' :
  In k' (keys m) -> In k' (keys (update k f m)).
Proof.
  unfold keys. induction m as [|[k0 v0] m IH]; cbn [update]; [intros []|].
  destruct (ltb k k0); [|destruct (ltb k0 k)]; cbn; intros [H|H]; auto.
Qed.

End Map.

Arguments begin {K V} m.
Arguments size {K V} m.
Arguments find {K V} ltb k m.
Arguments update {K V} ltb k f m.
Arguments keys {K V} m.
Arguments sorted {K V} ltb m.
Arguments equiv {K} ltb a b.

End StdMap.

(** ** truth_fitting_momentum_residual.cpp *)

Module TruthFitting.

(** [traccc::scalar] is an IEEE 754 binary floating-point type ([float]
    unless the build selects [double]); a value is held as a [spec_float]
    and the format is a parameter of the externals below. *)
Definition scalar : Type := spec_float.

(** [std::array<scalar, 3>]; [v2] is the element at index 2. *)
Record vector3 : Type := mk_vector3 { v0 : scalar; v1 : scalar; v2 : scalar }.
Definition point3 : Type := vector3.
Record point2 : Type := mk_point2 { u0 : scalar; u1 : scalar }.

(** The members of [traccc::particle] this program reads. *)
Record particle : Type := mk_particle {
  particle_id : N;
  momentum : vector3;
  charge : scalar
}.

(** The value of a decimal [float] literal [num/den] written with the [f]
    suffix: the binary32 number nearest to the quotient. *)
Definition float_literal (num den : Z) : spec_float :=
  SFdiv 24 128 (binary_normalize 24 128 num 0 false)
               (binary_normalize 24 128 den 0 false).

Definition lit_0_05f : spec_float := float_literal 5 100.
Definition lit_0_02f : spec_float := float_literal 2 100.
Definition lit_0_0085f : spec_float := float_literal 85 10000.
Definition lit_1f : spec_float := float_literal 1 1.

(** The three maps of [traccc::event_data] that [main] reads. *)
Record event_data (measurement : Type) : Type := mk_event_data {
  m_particle_map : StdMap.t N particle;
  m_meas_to_ptc_map : StdMap.t measurement (StdMap.t particle N);
  m_meas_to_param_map : StdMap.t measurement (point3 * vector3)
}.
Arguments m_particle_map {measurement} e.
Arguments m_meas_to_ptc_map {measurement} e.
Arguments m_meas_to_param_map {measurement} e.

(** One element of the fitter's output container; the header is bound at
    line 184 and never read. *)
Record fitted_track (track_state : Type) : Type := mk_fitted_track {
  items : list track_state
}.
Arguments items {track_state} f.

(** The ways a run stops early.  [undefined_behaviour] marks an operation
    whose behaviour the language leaves undefined: the model stops there
    and says nothing of what a build does next. *)
Inductive error : Type :=
| runtime_error (what : string)
| out_of_range (what : string)
| assertion_failed (expr : string)
| undefined_behaviour (what : string)
| collaborator_error (what : string).

(** What the program takes from its build and from traccc, detray and the
    algebra plugin: whether the build defines [NDEBUG], the scalar format
    and units, vector getters, key orderings, the accessors of fitted
    states, and the three collaborators called once per event. *)
Record externals : Type := mk_externals {
  ndebug : bool;
  prec : Z;
  emax : Z;
  mm : scalar;
  ns : scalar;
  norm : vector3 -> scalar;
  perp : vector3 -> scalar;
  particle_ltb : particle -> particle -> bool;
  measurement : Type;
  measurement_ltb : measurement -> measurement -> bool;
  bound_track_parameters : Type;
  qop : bound_track_parameters -> scalar;
  qopT : bound_track_parameters -> scalar;
  qopz : bound_track_parameters -> scalar;
  bound_local : bound_track_parameters -> point2;
  dir : bound_track_parameters -> vector3;
  track_state : Type;
  smoothed : track_state -> bound_track_parameters;
  get_measurement : track_state -> measurement;
  surface_link : track_state -> N;
  bound_to_global : N -> point2 -> vector3 -> point3;
  seed_generator : Type;
  make_seed_generator : list scalar -> seed_generator;
  candidates : Type;
  read_inputs : error + unit;
  read_event_data : N -> error + event_data measurement;
  generate_truth_candidates :
    event_data measurement -> seed_generator -> error + candidates;
  host_fitting : candidates -> error + list (fitted_track track_state)
}.

(** The rows of [residual.csv] and [state.csv]; the decimal rendering of
    the numbers is left out. *)
Record residual_row : Type := mk_residual_row {
  fit_qop : scalar; fit_qopT : scalar; fit_qopz : scalar;
  truth_qop : scalar; truth_qopT : scalar; truth_qopz : scalar;
  qop_residual : scalar; qopT_residual : scalar; qopz_residual : scalar
}.

Record state_row : Type := mk_state_row {
  event_id : N; fit_track_id : N;
  gx : scalar; gy : scalar; gz : scalar
}.

Inductive csv_line (row : Type) : Type :=
| csv_header (text : string)
| csv_row (r : row).
Arguments csv_header {row} text.
Arguments csv_row {row} r.

(** Calls to the collaborators, in the order they are made. *)
Inductive call : Type :=
| call_event_data (event : N)
| call_seed_generator (stddevs : list scalar)
| call_generate_truth_candidates
| call_host_fitting.

(** The two output streams and the log of collaborator calls. *)
Record world : Type := mk_world {
  residual_file : list (csv_line residual_row);
  state_file : list (csv_line state_row);
  calls : list call
}.

(** Computations that write to the streams and may throw; the world
    reached is kept when they throw. *)
Definition M (A : Type) : Type := world -> world * (error + A).

Definition ret {A} (a : A) : M A := fun w => (w, inr a).
Definition throw {A} (e : error) : M A := fun w => (w, inl e).
Definition bind {A B} (m : M A) (k : A -> M B) : M B :=
  fun w =>
    match m w with
    | (w', inl e) => (w', inl e)
    | (w', inr a) => k a w'
    end.

Notation "x <- m ;; k" := (bind m (fun x => k))
  (at level 61, m at next level, right associativity).
Notation "m ;;; k" := (bind m (fun _ => k))
  (at level 61, right associativity).

Definition lift {A} (r : error + A) : M A := fun w => (w, r).
Definition log (c : call) : M unit :=
  fun w => (mk_world (residual_file w) (state_file w) (calls w ++ [c]), inr tt).
Definition write_residual (l : csv_line residual_row) : M unit :=
  fun w => (mk_world (residual_file w ++ [l]) (state_file w) (calls w), inr tt).
Definition write_state (l : csv_line state_row) : M unit :=
  fun w => (mk_world (residual_file w) (state_file w ++ [l]) (calls w), inr tt).

(** The macro [assert(c)]: in a build that defines [NDEBUG] it expands to
    nothing and [c] is not looked at; otherwise a false [c] aborts. *)
Definition assert (ndebug : bool) (c : bool) (expr : string) : M unit :=
  if ndebug then ret tt
  else if c then ret tt else throw (assertion_failed expr).

(** [m.at(k)]. *)
Definition map_at {K V} (ltb : K -> K -> bool) (m : StdMap.t K V) (k : K)
  : M V :=
  match StdMap.find ltb k m with
  | Some v => ret v
  | None => throw (out_of_range "map::at")
  end.

(** [*m.begin()]; dereferencing [end()] has no defined behaviour. *)
Definition deref_begin {K V} (m : StdMap.t K V) : M (K * V) :=
  match StdMap.begin m with
  | Some kv => ret kv
  | None => throw (undefined_behaviour "dereference of map::end()")
  end.

Fixpoint for_each {A} (body : A -> M unit) (l : list A) : M unit :=
  match l with
  | [] => ret tt
  | a :: l' => body a ;;; for_each body l'
  end.

Section Pipeline.
Variable E : externals.

(** A [float] literal converted to [scalar] (exact: the format has at
    least the precision of binary32). *)
Definition to_scalar (f : spec_float) : scalar :=
  match f with
  | S754_finite s m e =>
      binary_normalize (prec E) (emax E) (cond_Zopp s (Zpos m)) e false
  | _ => f
  end.

Definition mul : scalar -> scalar -> scalar := SFmul (prec E) (emax E).
Definition div : scalar -> scalar -> scalar := SFdiv (prec E) (emax E).
Definition sub : scalar -> scalar -> scalar := SFsub (prec E) (emax E).

(** Lines 136-148: the standard deviations, in the order loc0, loc1, phi,
    theta, q/p, time. *)
Definition seed_stddevs (truth_mom : vector3) (charge : scalar)
  : list scalar :=
  let qop_stddev :=
    div (mul (to_scalar lit_0_05f) (SFabs charge)) (norm E truth_mom) in
  [ mul (to_scalar lit_0_02f) (mm E);
    mul (to_scalar lit_0_02f) (mm E);
    to_scalar lit_0_0085f;
    to_scalar lit_0_0085f;
    qop_stddev;
    mul (to_scalar lit_1f) (ns E) ].

(** Lines 220-226: one row of [state.csv] per state of the track. *)
Definition write_state_row (event i : N) (st : track_state E) : M unit :=
  let xyz :=
    bound_to_global E (surface_link E st)
      (bound_local E (smoothed E st)) (dir E (smoothed E st)) in
  write_state (csv_row (mk_state_row event i (v0 xyz) (v1 xyz) (v2 xyz))).

(** Lines 168-226: the body of the loop over the fitted tracks. *)
Definition process_track (evt_data : event_data (measurement E))
    (event i : N) (trk : fitted_track (track_state E)) : M unit :=
  let trk_states_per_track := items trk in
  if Nat.eqb (length trk_states_per_track) 0 then
    throw (runtime_error "track states is empty")
  else
    match nth_error trk_states_per_track 0 with
    | None => throw (out_of_range "vector::at")
    | Some st0 =>
        let fit_par := smoothed E st0 in
        let fit_qop := qop E fit_par in
        let fit_qopT := qopT E fit_par in
        let fit_qopz := qopz E fit_par in
        let meas := get_measurement E st0 in
        param <- map_at (measurement_ltb E) (m_meas_to_param_map evt_data) meas ;;
        let global_mom := snd param in
        let p := norm E global_mom in
        let pT := perp E global_mom in
        let pz := v2 global_mom in
        contributing_particles <-
          map_at (measurement_ltb E) (m_meas_to_ptc_map evt_data) meas ;;
        first <- deref_begin contributing_particles ;;
        let ptc := fst first in
        let q := charge ptc in
        let truth_qop := div q p in
        let truth_qopT := div q pT in
        let truth_qopz := div q pz in
        write_residual
          (csv_row
             (mk_residual_row fit_qop fit_qopT fit_qopz
                truth_qop truth_qopT truth_qopz
                (sub fit_qop truth_qop)
                (sub fit_qopT truth_qopT)
                (sub fit_qopz truth_qopz))) ;;;
        for_each (write_state_row event i) trk_states_per_track
    end.

(** Lines 166-227: [for (unsigned int i = 0; i < n_fitted_tracks; i++)];
    the number of fitted tracks is taken to fit an [unsigned int]. *)
Fixpoint for_tracks (evt_data : event_data (measurement E)) (event i : N)
    (tracks : list (fitted_track (track_state E))) : M unit :=
  match tracks with
  | [] => ret tt
  | trk :: rest =>
      process_track evt_data event i trk ;;;
      for_tracks evt_data event (N.succ i) rest
  end.

(** Lines 128-228: the body of the loop over the events (the count of
    fitted tracks printed on the standard output is left out). *)
Definition process_event (event : N) : M unit :=
  log (call_event_data event) ;;;
  evt_data <- lift (read_event_data E event) ;;
  assert (ndebug E) (Nat.ltb 0 (StdMap.size (m_particle_map evt_data)))
    "evt_data.m_particle_map.size() > 0u" ;;;
  first <- deref_begin (m_particle_map evt_data) ;;
  let truth_mom := momentum (snd first) in
  let charge := charge (snd first) in
  let stddevs := seed_stddevs truth_mom charge in
  log (call_seed_generator stddevs) ;;;
  let sg := make_seed_generator E stddevs in
  log call_generate_truth_candidates ;;;
  truth_track_candidates <- lift (generate_truth_candidates E evt_data sg) ;;
  log call_host_fitting ;;;
  track_states <- lift (host_fitting E truth_track_candidates) ;;
  for_tracks evt_data event 0 track_states.

(** [std::size_t], taken to be 64 bits wide. *)
Definition size_t_modulus : N := 2 ^ 64.

(** Lines 125-126: the number of times the body of
    [for (auto event = skip; event < events + skip; ++event)] runs, the
    sum being computed in [std::size_t]. *)
Definition event_count (skip events : N) : nat :=
  N.to_nat (((events + skip) mod size_t_modulus) - skip).

Fixpoint for_events (n : nat) (event : N) : M unit :=
  match n with
  | O => ret tt
  | S n' => process_event event ;;; for_events n' (N.succ event)
  end.

Definition residual_header : string :=
  "fit_qop, fit_qopT, fit_qopz, truth_qop, truth_qopT, truth_qopz,qop_residual, qopT_residual, qopz_residual".
Definition state_header : string := "event_id, fit_track_id, x, y, z".

(** [main]: the streams at the end of the run with the value returned, or
    with the exception that ended it. *)
Definition main (skip events : N) : world * (error + Z) :=
  (lift (read_inputs E) ;;;
   write_residual (csv_header residual_header) ;;;
   write_state (csv_header state_header) ;;;
   for_events (event_count skip events) skip ;;;
   ret EXIT_SUCCESS) (mk_world [] [] []).

End Pipeline.

(** [++] on a [uint64_t] counter; [None] is the value-initialised 0. *)
Definition increment (c : option N) : N :=
  match c with
  | None => 1
  | Some n => (n + 1) mod 2 ^ 64
  end.

(** A [std::map<particle, uint64_t>] filled by [counts[ptc]++] for the
    particles of [stream], in that order: the contributing particles of a
    measurement as a loader that meets them in stream order leaves them. *)
Definition count_contributions (ltb : particle -> particle -> bool)
    (stream : list particle) : StdMap.t particle N :=
  fold_left (fun m p => StdMap.update ltb p increment m) stream [].

(** The specification's reading of the collection: the first entry is the
    particle met first in the load stream. *)
Definition first_seen (stream : list particle) : option particle :=
  hd_error stream.

(** A scalar that is a number: neither NaN nor an infinity. *)
Definition is_number (x : scalar) : bool :=
  match x with
  | S754_zero _ | S754_finite _ _ _ => true
  | _ => false
  end.

(** *** A concrete set of collaborators

    A build with assertions, single precision, units equal to one, the Euclidean getters, keys
    ordered by identifier, planes along x, and stub loader and fitter that
    return a prepared event and prepared tracks. *)

Definition f32 (m e : Z) : scalar := binary_normalize 24 128 m e false.

Definition stub_norm (v : vector3) : scalar :=
  SFsqrt 24 128
    (SFadd 24 128
       (SFadd 24 128 (SFmul 24 128 (v0 v) (v0 v)) (SFmul 24 128 (v1 v) (v1 v)))
       (SFmul 24 128 (v2 v) (v2 v))).

Definition stub_perp (v : vector3) : scalar :=
  SFsqrt 24 128
    (SFadd 24 128 (SFmul 24 128 (v0 v) (v0 v)) (SFmul 24 128 (v1 v) (v1 v))).

Definition stub_particle_ltb (a b : particle) : bool :=
  N.ltb (particle_id a) (particle_id b).

Record stub_bound : Type := mk_stub_bound {
  b_qop : scalar; b_qopT : scalar; b_qopz : scalar;
  b_local : point2; b_dir : vector3
}.

Record stub_state : Type := mk_stub_state {
  s_smoothed : stub_bound; s_measurement : N; s_surface : N
}.

Definition stub_bound_to_global (sf : N) (loc : point2) (d : vector3)
  : point3 :=
  mk_vector3 (f32 (Z.of_N sf) 0) (u0 loc) (u1 loc).

Definition stub (evt : event_data N)
    (tracks : list (fitted_track stub_state)) : externals :=
  {| ndebug := false;
     prec := 24; emax := 128;
     mm := f32 1 0; ns := f32 1 0;
     norm := stub_norm; perp := stub_perp;
     particle_ltb := stub_particle_ltb;
     measurement := N; measurement_ltb := N.ltb;
     bound_track_parameters := stub_bound;
     qop := b_qop; qopT := b_qopT; qopz := b_qopz;
     bound_local := b_local; dir := b_dir;
     track_state := stub_state;
     smoothed := s_smoothed; get_measurement := s_measurement;
     surface_link := s_surface;
     bound_to_global := stub_bound_to_global;
     seed_generator := list scalar;
     make_seed_generator := fun sd => sd;
     candidates := unit;
     read_inputs := inr tt;
     read_event_data := fun _ => inr evt;
     generate_truth_candidates := fun _ _ => inr tt;
     host_fitting := fun _ => inr tracks |}.

Definition vec (a b c : Z) : vector3 := mk_vector3 (f32 a 0) (f32 b 0) (f32 c 0).

(** A particle of charge +1 flying along the beam axis x, and a second one
    of charge -1 with a smaller identifier. *)
Definition muon_plus : particle := mk_particle 2 (vec 1 0 0) (f32 1 0).
Definition muon_minus : particle := mk_particle 1 (vec 1 0 0) (f32 (-1) 0).
(** A particle of charge +1 with momentum (3, 0, 4). *)
Definition oblique : particle := mk_particle 7 (vec 3 0 4) (f32 1 0).
(** A particle at rest. *)
Definition at_rest : particle := mk_particle 3 (vec 0 0 0) (f32 1 0).

(** An event with one particle that left measurements 10 and 20. *)
Definition one_particle_event (p : particle) : event_data N :=
  {| m_particle_map := [(particle_id p, p)];
     m_meas_to_ptc_map :=
       [(10%N, count_contributions stub_particle_ltb [p]);
        (20%N, count_contributions stub_particle_ltb [p])];
     m_meas_to_param_map :=
       [(10%N, (vec 10 0 0, momentum p)); (20%N, (vec 20 0 0, momentum p))] |}.

(** An event in which measurement 10 is shared: [muon_plus] is met first
    in the stream, [muon_minus] second. *)
Definition shared_hit_event : event_data N :=
  {| m_particle_map := [(1%N, muon_minus); (2%N, muon_plus)];
     m_meas_to_ptc_map :=
       [(10%N, count_contributions stub_particle_ltb [muon_plus; muon_minus])];
     m_meas_to_param_map := [(10%N, (vec 10 0 0, vec 1 0 0))] |}.

(** An event without truth particles. *)
Definition empty_event : event_data N :=
  {| m_particle_map := []; m_meas_to_ptc_map := [];
     m_meas_to_param_map := [] |}.

(** A fitted state on measurement [meas] with the given q/p triple. *)
Definition stub_fit (meas : N) (q qT qz : scalar) : stub_state :=
  mk_stub_state
    (mk_stub_bound q qT qz (mk_point2 (f32 0 0) (f32 0 0)) (vec 1 0 0))
    meas meas.

(** A two-state track whose first state carries the triple. *)
Definition stub_track (q qT qz : scalar) : fitted_track stub_state :=
  mk_fitted_track _ [stub_fit 10 q qT qz; stub_fit 20 q qT qz].

Definition w0 : world := mk_world [] [] [].

Definition one : scalar := f32 1 0.

(** The oblique particle with a fit that reproduces its truth triple
    (1/5, 1/3, 1/4 rounded to single precision). *)
Definition oblique_track : fitted_track stub_state :=
  stub_track (SFdiv 24 128 one (f32 5 0)) (SFdiv 24 128 one (f32 3 0))
    (SFdiv 24 128 one (f32 4 0)).
Definition oblique_setup : externals :=
  stub (one_particle_event oblique) [oblique_track].

(** The particle along the beam axis: its longitudinal momentum is zero,
    so its truth q/p-longitudinal is +infinity; the fit reproduces the
    truth triple. *)
Definition beam_track : fitted_track stub_state :=
  stub_track one one (S754_infinity false).
Definition beam_setup : externals :=
  stub (one_particle_event muon_plus) [beam_track].
Definition beam_row : residual_row :=
  mk_residual_row one one (S754_infinity false)
    one one (S754_infinity false)
    (S754_zero false) (S754_zero false) S754_nan.

(** The shared measurement. *)
Definition shared_setup : externals := stub shared_hit_event [beam_track].

(** A track without states between two ordinary ones. *)
Definition hollow_track : fitted_track stub_state := mk_fitted_track _ [].
Definition hollow_setup : externals :=
  stub (one_particle_event oblique) [oblique_track; hollow_track; oblique_track].
Definition after_first_track : world :=
  fst (for_tracks hollow_setup (one_particle_event oblique) 0 0
         [oblique_track] w0).

Definition empty_setup : externals := stub empty_event [].

(** The same collaborators in a build that defines [NDEBUG]. *)
Definition release_build (E : externals) : externals :=
  {| ndebug := true;
     prec := prec E; emax := emax E;
     mm := mm E; ns := ns E;
     norm := norm E; perp := perp E;
     particle_ltb := particle_ltb E;
     measurement := measurement E; measurement_ltb := measurement_ltb E;
     bound_track_parameters := bound_track_parameters E;
     qop := qop E; qopT := qopT E; qopz := qopz E;
     bound_local := bound_local E; dir := dir E;
     track_state := track_state E;
     smoothed := smoothed E; get_measurement := get_measurement E;
     surface_link := surface_link E;
     bound_to_global := bound_to_global E;
     seed_generator := seed_generator E;
     make_seed_generator := make_seed_generator E;
     candidates := candidates E;
     read_inputs := read_inputs E;
     read_event_data := read_event_data E;
     generate_truth_candidates := generate_truth_candidates E;
     host_fitting := host_fitting E |}.
Definition release_empty_setup : externals := release_build empty_setup.
Definition rest_setup : externals := stub (one_particle_event at_rest) [].

(** The rows of [state.csv] written for the states of one track. *)
Definition state_rows (E : externals) (event i : N)
    (states : list (track_state E)) : list (csv_line state_row) :=
  map (fun st =>
         let xyz :=
           bound_to_global E (surface_link E st)
             (bound_local E (smoothed E st)) (dir E (smoothed E st)) in
         csv_row (mk_state_row event i (v0 xyz) (v1 xyz) (v2 xyz)))
      states.

(** The residual row of a track whose first state is [st0], for a truth
    momentum [global_mom] and a truth particle [ptc] (lines 191-218). *)
Definition residual_row_of (E : externals) (st0 : track_state E)
    (global_mom : vector3) (ptc : particle) : residual_row :=
  let fit_par := smoothed E st0 in
  let q := charge ptc in
  mk_residual_row (qop E fit_par) (qopT E fit_par) (qopz E fit_par)
    (div E q (norm E global_mom)) (div E q (perp E global_mom))
    (div E q (v2 global_mom))
    (sub E (qop E fit_par) (div E q (norm E global_mom)))
    (sub E (qopT E fit_par) (div E q (perp E global_mom)))
    (sub E (qopz E fit_par) (div E q (v2 global_mom))).

(** The rows of [state.csv] written for a list of tracks numbered from
    [i] on. *)
Fixpoint numbered_state_rows (E : externals) (event i : N)
    (tracks : list (fitted_track (track_state E)))
  : list (csv_line state_row) :=
  match tracks with
  | [] => []
  | trk :: rest =>
      state_rows E event i (items trk) ++
      numbered_state_rows E event (N.succ i) rest
  end.

(** A residual row that belongs to a track: its fit triple is read from
    the first state of the track and its residuals are fit - truth. *)
Definition row_of_track (E : externals) (trk : fitted_track (track_state E))
    (row : residual_row) : Prop :=
  exists st0,
    hd_error (items trk) = Some st0 /\
    fit_qop row = qop E (smoothed E st0) /\
    fit_qopT row = qopT E (smoothed E st0) /\
    fit_qopz row = qopz E (smoothed E st0) /\
    qop_residual row = sub E (fit_qop row) (truth_qop row) /\
    qopT_residual row = sub E (fit_qopT row) (truth_qopT row) /\
    qopz_residual row = sub E (fit_qopz row) (truth_qopz row).

(** A collaborator called for the event throws [e]: the loader, the
    builder of the truth candidates, or the fitter. *)
Inductive collaborator_throws (E : externals) (event : N) (e : error)
  : Prop :=
| loader_throws :
    read_event_data E event = inl e -> collaborator_throws E event e
| builder_throws evt id ptc :
    read_event_data E event = inr evt ->
    StdMap.begin (m_particle_map evt) = Some (id, ptc) ->
    generate_truth_candidates E evt
      (make_seed_generator E (seed_stddevs E (momentum ptc) (charge ptc)))
      = inl e ->
    collaborator_throws E event e
| fitter_throws evt id ptc cands :
    read_event_data E event = inr evt ->
    StdMap.begin (m_particle_map evt) = Some (id, ptc) ->
    generate_truth_candidates E evt
      (make_seed_generator E (seed_stddevs E (momentum ptc) (charge ptc)))
      = inr cands ->
    host_fitting E cands = inl e ->
    collaborator_throws E event e.

(** The events for which the loader was called, in call order. *)
Definition events_of (cs : list call) : list N :=
  flat_map (fun c => match c with call_event_data ev => [ev] | _ => [] end) cs.

(** The event numbers [first], [first + 1], ..., [n] of them. *)
Definition event_range (first : N) (n : nat) : list N :=
  map (fun k => (first + N.of_nat k)%N) (seq 0 n).

(** The streams right after they are opened. *)
Definition opened : world :=
  mk_world [csv_header residual_header] [csv_header state_header] [].

(** Collaborators whose loader and fitter are given per event and per
    call; the rest as in [stub]. *)
Definition stub_with (loader : N -> error + event_data N)
    (fitter : error + list (fitted_track stub_state)) : externals :=
  {| ndebug := false;
     prec := 24; emax := 128;
     mm := f32 1 0; ns := f32 1 0;
     norm := stub_norm; perp := stub_perp;
     particle_ltb := stub_particle_ltb;
     measurement := N; measurement_ltb := N.ltb;
     bound_track_parameters := stub_bound;
     qop := b_qop; qopT := b_qopT; qopz := b_qopz;
     bound_local := b_local; dir := b_dir;
     track_state := stub_state;
     smoothed := s_smoothed; get_measurement := s_measurement;
     surface_link := s_surface;
     bound_to_global := stub_bound_to_global;
     seed_generator := list scalar;
     make_seed_generator := fun sd => sd;
     candidates := unit;
     read_inputs := inr tt;
     read_event_data := loader;
     generate_truth_candidates := fun _ _ => inr tt;
     host_fitting := fun _ => fitter |}.

(** A fitter that throws. *)
Definition broken_fitter_setup : externals :=
  stub_with (fun _ => inr (one_particle_event oblique))
    (inl (collaborator_error "fit")).

(** Event 0 is sound, event 1 has no truth particle. *)
Definition second_event_empty_setup : externals :=
  stub_with
    (fun ev => if N.eqb ev 0 then inr (one_particle_event oblique)
               else inr empty_event)
    (inr [oblique_track]).

(** A track on a measurement that no map knows. *)
Definition stray_track : fitted_track stub_state :=
  mk_fitted_track _ [stub_fit 99 one one one].

(** The world after two sound tracks of event 0. *)
Definition after_two_tracks : world :=
  fst (for_tracks oblique_setup (one_particle_event oblique) 0 0
         [oblique_track; oblique_track] w0).

(** The worlds of a run of [second_event_empty_setup]: after event 0, and
    after the failed event 1. *)
Definition after_event_0 : world :=
  fst (for_events second_event_empty_setup 1 0 opened).
Definition after_event_1 : world :=
  fst (process_event second_event_empty_setup 1 after_event_0).

(** The world at the end of a run over the events 3 and 4. *)
Definition after_events_3_4 : world := fst (main oblique_setup 3 2).

(** Only rows have been appended to both files between two worlds. *)
Definition rows_appended (w w' : world) : Prop :=
  exists rs ss,
    residual_file w' = residual_file w ++ map csv_row rs /\
    state_file w' = state_file w ++ map csv_row ss.

(** *** Facts about the pipeline *)

Lemma float_literal_values :
  lit_0_05f = S754_finite false 13421773 (-28) /\
  lit_0_02f = S754_finite false 10737418 (-29) /\
  lit_0_0085f = S754_finite false 9126806 (-30) /\
  lit_1f = S754_finite false 8388608 (-23).
Proof. repeat split; vm_compute; reflexivity. Qed.

Lemma bind_inr {A B} (m : M A) (k : A -> M B) w w' b :
  bind m k w = (w', inr b) ->
  exists a w1, m w = (w1, inr a) /\ k a w1 = (w', inr b).
Proof.
  unfold bind. destruct (m w) as [w1 [e|a]]; [discriminate|].
  intros H. now exists a, w1.
Qed.

Lemma bind_inl {A B} (m : M A) (k : A -> M B) w w' e :
  m w = (w', inl e) -> bind m k w = (w', inl e).
Proof. unfold bind. now intros ->. Qed.

Lemma bind_step {A B} (m : M A) (k : A -> M B) w w' a :
  m w = (w', inr a) -> bind m k w = k a w'.
Proof. unfold bind. now intros ->. Qed.

Lemma assert_true nd expr : assert nd true expr = ret tt.
Proof. now destruct nd. Qed.

Lemma assert_cases nd c expr w :
  assert nd c expr w = (w, inr tt) \/
  exists e, assert nd c expr w = (w, inl e).
Proof.
  unfold assert. destruct nd; [now left|].
  destruct c; [now left | right; now eexists].
Qed.

Lemma world_eta w :
  mk_world (residual_file w) (state_file w) (calls w) = w.
Proof. now destruct w. Qed.

(** In x - x the two aligned significands cancel, and the sum of two zeros
    of one sign subtracted is +0. *)
Lemma sub_self_zero prec emax (x : scalar) :
  is_number x = true -> SFsub prec emax x x = S754_zero false.
Proof.
  destruct x as [s|s| |s m e]; cbn [is_number]; try discriminate; intros _.
  - now destruct s.
  - unfold SFsub. rewrite Z.min_id. unfold shl_align.
    rewrite Z.sub_diag. reflexivity.
Qed.

(** A quotient by zero is never a number: it is an infinity or NaN. *)
Lemma div_by_zero_not_number prec emax (x : scalar) (s : bool) :
  is_number (SFdiv prec emax x (S754_zero s)) = false.
Proof. now destruct x. Qed.

Section CountContributions.
Variable ltb : particle -> particle -> bool.
Hypothesis ltb_irrefl : forall a, ltb a a = false.
Hypothesis ltb_trans :
  forall a b c, ltb a b = true -> ltb b c = true -> ltb a c = true.
Hypothesis ltb_cotrans :
  forall a b c, ltb a b = true -> ltb a c = true \/ ltb c b = true.

Let count_from (m : StdMap.t particle N) (stream : list particle) :=
  fold_left (fun m p => StdMap.update ltb p increment m) stream m.

Lemma count_from_sorted stream : forall m,
  StdMap.sorted ltb m -> StdMap.sorted ltb (count_from m stream).
Proof.
  induction stream as [|p stream IH]; intros m Hm; cbn; [exact Hm|].
  apply IH. now apply StdMap.sorted_update.
Qed.

Lemma count_from_keys stream : forall m k,
  In k (StdMap.keys (count_from m stream)) ->
  In k (StdMap.keys m) \/ In k stream.
Proof.
  induction stream as [|p stream IH]; intros m k Hk; cbn in *; [now left|].
  destruct (IH _ _ Hk) as [H|H]; [|right; now right].
  destruct (StdMap.update_keys _ _ _ _ _ _ _ H) as [->|H'];
    [right; now left | now left].
Qed.

Lemma count_from_keeps stream : forall m k,
  In k (StdMap.keys m) -> In k (StdMap.keys (count_from m stream)).
Proof.
  induction stream as [|p stream IH]; intros m k Hk; cbn; [exact Hk|].
  apply IH. now apply StdMap.update_keeps_keys.
Qed.

Lemma count_from_covers stream : forall m q,
  In q stream ->
  exists k, In k (StdMap.keys (count_from m stream)) /\
            StdMap.equiv ltb q k = true.
Proof.
  induction stream as [|p stream IH]; intros m q Hq; [destruct Hq|].
  cbn. destruct Hq as [->|Hq]; [|now apply IH].
  destruct (StdMap.update_has_key _ _ ltb ltb_irrefl q increment m)
    as (k & Hk & He).
  exists k. split; [now apply count_from_keeps | exact He].
Qed.

(** The first entry of the map of contributing particles is a particle of
    the stream that no particle of the stream is less than. *)
Lemma count_contributions_begin stream :
  stream <> [] ->
  exists ptc cnt,
    StdMap.begin (count_contributions ltb stream) = Some (ptc, cnt) /\
    In ptc stream /\
    forall q, In q stream -> ltb q ptc = false.
Proof.
  intros Hne. change (count_contributions ltb stream) with (count_from [] stream).
  assert (Hs : StdMap.sorted ltb (count_from [] stream))
    by (apply count_from_sorted; constructor).
  destruct (count_from [] stream) as [|[ptc cnt] m] eqn:Hm.
  - destruct stream as [|p stream]; [now destruct Hne|].
    destruct (count_from_covers (p :: stream) [] p) as (k & Hk & _);
      [now left|]. rewrite Hm in Hk. destruct Hk.
  - exists ptc, cnt. split; [reflexivity|]. split.
    + destruct (count_from_keys stream [] ptc) as [[]|H]; [|exact H].
      rewrite Hm. now left.
    + intros q Hq.
      destruct (count_from_covers stream [] q Hq) as (k & Hk & He).
      rewrite Hm in Hk.
      assert (Hleast : ltb k ptc = false)
        by (apply (StdMap.begin_least _ _ ltb ltb_irrefl ltb_trans
                     ((ptc, cnt) :: m) ptc cnt Hs eq_refl k Hk)).
      destruct (ltb q ptc) eqn:Hlt; [|reflexivity].
      unfold StdMap.equiv in He. apply andb_prop in He as [He _].
      destruct (ltb_cotrans q ptc k Hlt) as [H|H].
      * rewrite H in He. discriminate.
      * rewrite H in Hleast. discriminate.
Qed.

End CountContributions.

Section PipelineFacts.
Variable E : externals.

Lemma for_each_write_state event i (states : list (track_state E)) : forall w,
  for_each (write_state_row E event i) states w =
  (mk_world (residual_file w) (state_file w ++ state_rows E event i states)
     (calls w), inr tt).
Proof.
  induction states as [|st states IH]; intros w; cbn [for_each state_rows map].
  - unfold ret. rewrite app_nil_r, world_eta. reflexivity.
  - unfold bind, write_state_row, write_state. rewrite IH.
    cbn [residual_file state_file calls]. rewrite <- app_assoc. reflexivity.
Qed.

(** A track with a first state, whose measurement is known to both maps,
    gets one residual row and one position row per state. *)
Lemma process_track_row evt event i trk st0 more param contributing ptc cnt w :
  items trk = st0 :: more ->
  StdMap.find (measurement_ltb E) (get_measurement E st0)
    (m_meas_to_param_map evt) = Some param ->
  StdMap.find (measurement_ltb E) (get_measurement E st0)
    (m_meas_to_ptc_map evt) = Some contributing ->
  StdMap.begin contributing = Some (ptc, cnt) ->
  process_track E evt event i trk w =
  (mk_world
     (residual_file w ++ [csv_row (residual_row_of E st0 (snd param) ptc)])
     (state_file w ++ state_rows E event i (items trk))
     (calls w), inr tt).
Proof.
  intros Hitems Hparam Hcontrib Hbegin. unfold process_track.
  rewrite Hitems. cbn [length Nat.eqb nth_error].
  unfold bind, map_at. rewrite Hparam. unfold ret at 1.
  rewrite Hcontrib. unfold ret at 1.
  unfold deref_begin. rewrite Hbegin. unfold ret at 1.
  unfold write_residual. rewrite for_each_write_state.
  cbn [residual_file state_file calls fst]. reflexivity.
Qed.

(** A track without states throws before anything is written. *)
Lemma process_track_empty evt event i trk w :
  items trk = [] ->
  process_track E evt event i trk w =
  (w, inl (runtime_error "track states is empty")).
Proof. intros Hitems. unfold process_track. rewrite Hitems. reflexivity. Qed.

(** The loop over the tracks calls no collaborator. *)
Lemma process_track_calls evt event i trk w :
  calls (fst (process_track E evt event i trk w)) = calls w.
Proof.
  unfold process_track.
  destruct (Nat.eqb (length (items trk)) 0); [reflexivity|].
  destruct (nth_error (items trk) 0) as [st0|]; [|reflexivity].
  unfold bind, map_at.
  destruct (StdMap.find _ _ (m_meas_to_param_map evt)); [|reflexivity].
  unfold ret at 1.
  destruct (StdMap.find _ _ (m_meas_to_ptc_map evt)) as [c|]; [|reflexivity].
  unfold ret at 1. unfold deref_begin.
  destruct (StdMap.begin c); [|reflexivity].
  unfold ret at 1. unfold write_residual. rewrite for_each_write_state.
  reflexivity.
Qed.

Lemma for_tracks_calls evt event tracks : forall i w,
  calls (fst (for_tracks E evt event i tracks w)) = calls w.
Proof.
  induction tracks as [|trk tracks IH]; intros i w; cbn [for_tracks].
  - reflexivity.
  - unfold bind.
    pose proof (process_track_calls evt event i trk w) as Hc.
    destruct (process_track E evt event i trk w) as [w1 [e|[]]];
      cbn [fst] in *; [exact Hc|].
    rewrite IH. exact Hc.
Qed.

Lemma for_tracks_app evt event pre : forall post i w w',
  for_tracks E evt event i pre w = (w', inr tt) ->
  for_tracks E evt event i (pre ++ post) w =
  for_tracks E evt event (i + N.of_nat (length pre)) post w'.
Proof.
  induction pre as [|trk pre IH]; intros post i w w' Hpre;
    cbn [for_tracks app length] in *.
  - unfold ret in Hpre. injection Hpre as ->. now rewrite N.add_0_r.
  - apply bind_inr in Hpre as ([] & w1 & Htrk & Hrest).
    rewrite (bind_step _ _ _ _ _ Htrk). rewrite (IH post _ _ _ Hrest).
    f_equal. lia.
Qed.

(** What the event loop does up to the construction of the seed
    generator, for an event with a first truth particle. *)
Lemma process_event_seeded event evt id ptc w :
  read_event_data E event = inr evt ->
  StdMap.begin (m_particle_map evt) = Some (id, ptc) ->
  exists rest,
    calls (fst (process_event E event w)) =
      calls w ++
      call_event_data event ::
      call_seed_generator (seed_stddevs E (momentum ptc) (charge ptc)) ::
      rest /\
    (rest = [call_generate_truth_candidates] \/
     rest = [call_generate_truth_candidates; call_host_fitting]).
Proof.
  intros Hread Hbegin. unfold process_event.
  unfold bind at 1. unfold log at 1. unfold bind at 1. unfold lift at 1.
  rewrite Hread. unfold bind at 1.
  assert (Hsize : Nat.ltb 0 (StdMap.size (m_particle_map evt)) = true).
  { destruct (m_particle_map evt); [discriminate | reflexivity]. }
  rewrite Hsize, assert_true. unfold ret at 1. unfold bind at 1.
  unfold deref_begin. rewrite Hbegin. unfold ret at 1. cbn [snd].
  unfold bind at 1, log at 1. unfold bind at 1, log at 1.
  unfold bind at 1, lift at 1.
  cbn [residual_file state_file calls].
  destruct (generate_truth_candidates E evt _) as [e|cands].
  - cbn [fst calls]. exists [call_generate_truth_candidates].
    split; [|now left]. rewrite <- !app_assoc. reflexivity.
  - unfold bind at 1, log at 1. unfold bind at 1, lift at 1.
    cbn [residual_file state_file calls].
    exists [call_generate_truth_candidates; call_host_fitting].
    split; [|now right].
    destruct (host_fitting E cands) as [e|tracks].
    + cbn [fst calls]. rewrite <- !app_assoc. reflexivity.
    + rewrite for_tracks_calls. cbn [calls].
      rewrite <- !app_assoc. reflexivity.
Qed.

(** C4: for every event that has a first truth particle, the seed
    generator is constructed once, with the standard deviations
    0.02f * mm on both local axes, 0.0085f on both angles,
    0.05f * |charge| / |momentum| of that particle for q/p, and 1.f * ns
    for the time. *)
Theorem seed_standard_deviations (event : N)
    (evt : event_data (measurement E)) (id : N) (ptc : particle) (w : world)
    (Hread : read_event_data E event = inr evt)
    (Hfirst : StdMap.begin (m_particle_map evt) = Some (id, ptc)) :
  exists rest,
    calls (fst (process_event E event w)) =
      calls w ++
      call_event_data event ::
      call_seed_generator
        [ mul E (to_scalar E lit_0_02f) (mm E);
          mul E (to_scalar E lit_0_02f) (mm E);
          to_scalar E lit_0_0085f;
          to_scalar E lit_0_0085f;
          div E (mul E (to_scalar E lit_0_05f) (SFabs (charge ptc)))
            (norm E (momentum ptc));
          mul E (to_scalar E lit_1f) (ns E) ] ::
      rest /\
    (forall sd, ~ In (call_seed_generator sd) rest).
Proof.
  destruct (process_event_seeded event evt id ptc w Hread Hfirst)
    as (rest & Hcalls & Hrest).
  exists rest. split; [exact Hcalls|].
  intros sd Hin. destruct Hrest as [-> | ->]; cbn in Hin;
    repeat (destruct Hin as [Hin|Hin]; [discriminate|]); exact Hin.
Qed.

(** C5, amended: the truth triple of a fitted track is charge / |p|,
    charge / p-transverse and charge / signed p-longitudinal, with the
    momentum looked up through the measurement of the first state and the
    charge taken from the first entry of the measurement's map of
    contributing particles; that entry is the particle that is least
    under the map's key ordering among the particles that contributed,
    whatever the order in which the stream brought them. *)
Theorem truth_quantities (evt : event_data (measurement E)) (event i : N)
    (trk : fitted_track (track_state E)) (st0 : track_state E)
    (more : list (track_state E)) (param : point3 * vector3)
    (stream : list particle) (w : world)
    (Hirrefl : forall a, particle_ltb E a a = false)
    (Htrans : forall a b c, particle_ltb E a b = true ->
                particle_ltb E b c = true -> particle_ltb E a c = true)
    (Hcotrans : forall a b c, particle_ltb E a b = true ->
                  particle_ltb E a c = true \/ particle_ltb E c b = true)
    (Hitems : items trk = st0 :: more)
    (Hparam : StdMap.find (measurement_ltb E) (get_measurement E st0)
                (m_meas_to_param_map evt) = Some param)
    (Hcontrib : StdMap.find (measurement_ltb E) (get_measurement E st0)
                  (m_meas_to_ptc_map evt) =
                Some (count_contributions (particle_ltb E) stream))
    (Hstream : stream <> []) :
  exists ptc cnt row,
    StdMap.begin (count_contributions (particle_ltb E) stream)
      = Some (ptc, cnt) /\
    In ptc stream /\
    (forall q, In q stream -> particle_ltb E q ptc = false) /\
    residual_file (fst (process_track E evt event i trk w)) =
      residual_file w ++ [csv_row row] /\
    truth_qop row = div E (charge ptc) (norm E (snd param)) /\
    truth_qopT row = div E (charge ptc) (perp E (snd param)) /\
    truth_qopz row = div E (charge ptc) (v2 (snd param)).
Proof.
  destruct (count_contributions_begin (particle_ltb E) Hirrefl Htrans
              Hcotrans stream Hstream) as (ptc & cnt & Hbegin & Hin & Hleast).
  exists ptc, cnt, (residual_row_of E st0 (snd param) ptc).
  rewrite (process_track_row evt event i trk st0 more param _ ptc cnt w
             Hitems Hparam Hcontrib Hbegin).
  repeat split; try assumption.
Qed.

(** C6, amended: the residual row holds the fit triple read from the
    first state, the truth triple, and the three differences fit - truth;
    whenever a fit value equals its truth value and is a number (not an
    infinity, not NaN), the residual written for it is exactly +0. *)
Theorem residual_row_algebra (evt : event_data (measurement E)) (event i : N)
    (trk : fitted_track (track_state E)) (st0 : track_state E)
    (more : list (track_state E)) (param : point3 * vector3)
    (contributing : StdMap.t particle N) (ptc : particle) (cnt : N)
    (w : world)
    (Hitems : items trk = st0 :: more)
    (Hparam : StdMap.find (measurement_ltb E) (get_measurement E st0)
                (m_meas_to_param_map evt) = Some param)
    (Hcontrib : StdMap.find (measurement_ltb E) (get_measurement E st0)
                  (m_meas_to_ptc_map evt) = Some contributing)
    (Hbegin : StdMap.begin contributing = Some (ptc, cnt)) :
  exists row,
    residual_file (fst (process_track E evt event i trk w)) =
      residual_file w ++ [csv_row row] /\
    (fit_qop row, fit_qopT row, fit_qopz row) =
      (qop E (smoothed E st0), qopT E (smoothed E st0),
       qopz E (smoothed E st0)) /\
    (truth_qop row, truth_qopT row, truth_qopz row) =
      (div E (charge ptc) (norm E (snd param)),
       div E (charge ptc) (perp E (snd param)),
       div E (charge ptc) (v2 (snd param))) /\
    qop_residual row = sub E (fit_qop row) (truth_qop row) /\
    qopT_residual row = sub E (fit_qopT row) (truth_qopT row) /\
    qopz_residual row = sub E (fit_qopz row) (truth_qopz row) /\
    (fit_qop row = truth_qop row -> is_number (fit_qop row) = true ->
     qop_residual row = S754_zero false) /\
    (fit_qopT row = truth_qopT row -> is_number (fit_qopT row) = true ->
     qopT_residual row = S754_zero false) /\
    (fit_qopz row = truth_qopz row -> is_number (fit_qopz row) = true ->
     qopz_residual row = S754_zero false).
Proof.
  exists (residual_row_of E st0 (snd param) ptc).
  rewrite (process_track_row evt event i trk st0 more param _ ptc cnt w
             Hitems Hparam Hcontrib Hbegin).
  cbn [fst residual_file residual_row_of fit_qop fit_qopT fit_qopz
       truth_qop truth_qopT truth_qopz qop_residual qopT_residual
       qopz_residual].
  repeat split; intros <- Hnum; now apply sub_self_zero.
Qed.

(** C7: a fitted track without states makes the loop over the tracks
    throw the runtime error "track states is empty"; the streams are left
    as the tracks before it left them, so no residual row and no position
    row is written for it, and what follows the loop is not run. *)
Theorem empty_track_aborts (evt : event_data (measurement E)) (event i : N)
    (pre post : list (fitted_track (track_state E)))
    (trk : fitted_track (track_state E)) (w w' : world)
    (Hitems : items trk = [])
    (Hpre : for_tracks E evt event i pre w = (w', inr tt)) :
  process_track E evt event (i + N.of_nat (length pre)) trk w' =
    (w', inl (runtime_error "track states is empty")) /\
  for_tracks E evt event i (pre ++ trk :: post) w =
    (w', inl (runtime_error "track states is empty")) /\
  (forall (next : M unit),
     (for_tracks E evt event i (pre ++ trk :: post) ;;; next) w =
     (w', inl (runtime_error "track states is empty"))).
Proof.
  assert (Htrk := process_track_empty evt event
                    (i + N.of_nat (length pre)) trk w' Hitems).
  assert (Hloop : for_tracks E evt event i (pre ++ trk :: post) w =
                  (w', inl (runtime_error "track states is empty"))).
  { rewrite (for_tracks_app evt event pre (trk :: post) i w w' Hpre).
    cbn [for_tracks]. now apply bind_inl. }
  split; [exact Htrk|]. split; [exact Hloop|].
  intros next. now apply bind_inl.
Qed.

(** In a build with assertions, an event whose map of truth particles is
    empty fails the assertion on the size of the map; the event stops
    there, before the seed generator is constructed, nothing is written,
    and the loop over the events stops with it. *)
Lemma empty_population_aborts (event : N)
    (evt : event_data (measurement E)) (w : world)
    (Hdebug : ndebug E = false)
    (Hread : read_event_data E event = inr evt)
    (Hempty : StdMap.size (m_particle_map evt) = 0%nat) :
  exists w',
    process_event E event w =
      (w', inl (assertion_failed "evt_data.m_particle_map.size() > 0u")) /\
    calls w' = calls w ++ [call_event_data event] /\
    residual_file w' = residual_file w /\
    state_file w' = state_file w /\
    (forall n,
       for_events E (S n) event w =
       (w', inl (assertion_failed "evt_data.m_particle_map.size() > 0u"))).
Proof.
  assert (Hevent :
    process_event E event w =
    (mk_world (residual_file w) (state_file w)
       (calls w ++ [call_event_data event]),
     inl (assertion_failed "evt_data.m_particle_map.size() > 0u"))).
  { unfold process_event.
    unfold bind at 1. unfold log at 1. unfold bind at 1. unfold lift at 1.
    rewrite Hread. unfold bind at 1. unfold assert.
    rewrite Hdebug, Hempty. reflexivity. }
  eexists. split; [exact Hevent|]. cbn [calls residual_file state_file].
  repeat split. intros n. cbn [for_events]. now apply bind_inl.
Qed.

(** C8: in a build that defines [NDEBUG] the only guard on the truth
    population, the assertion at line 134, is compiled away: for an event
    whose map of truth particles is empty no error is raised by the
    check, and line 136 dereferences [begin()] of the empty map, that is
    [end()], which the language leaves undefined. *)
Theorem empty_population_unchecked (event : N)
    (evt : event_data (measurement E)) (w : world)
    (Hrelease : ndebug E = true)
    (Hread : read_event_data E event = inr evt)
    (Hempty : StdMap.size (m_particle_map evt) = 0%nat) :
  assert (ndebug E) (Nat.ltb 0 (StdMap.size (m_particle_map evt)))
    "evt_data.m_particle_map.size() > 0u" = ret tt /\
  StdMap.begin (m_particle_map evt) = None /\
  process_event E event w =
    (mk_world (residual_file w) (state_file w)
       (calls w ++ [call_event_data event]),
     inl (undefined_behaviour "dereference of map::end()")) /\
  snd (process_event E event w) <>
    inl (assertion_failed "evt_data.m_particle_map.size() > 0u").
Proof.
  assert (Hbegin : StdMap.begin (m_particle_map evt) = None).
  { destruct (m_particle_map evt); [reflexivity | discriminate]. }
  assert (Hevent :
    process_event E event w =
    (mk_world (residual_file w) (state_file w)
       (calls w ++ [call_event_data event]),
     inl (undefined_behaviour "dereference of map::end()"))).
  { unfold process_event.
    unfold bind at 1. unfold log at 1. unfold bind at 1. unfold lift at 1.
    rewrite Hread. unfold bind at 1. unfold assert. rewrite Hrelease.
    unfold ret at 1. unfold bind at 1. unfold deref_begin.
    rewrite Hbegin. reflexivity. }
  split; [unfold assert; now rewrite Hrelease|].
  split; [exact Hbegin|]. split; [exact Hevent|].
  rewrite Hevent. discriminate.
Qed.

(** C9, amended: for an event whose first truth particle, the first entry
    of the map of truth particles, from which [main] takes the momentum
    and the charge of the event, has momentum magnitude zero, no error is
    raised; the seed generator is constructed with the q/p standard
    deviation 0.05f * |charge| / 0, which is an infinity or NaN, and the
    event goes on to build the truth candidates. *)
Theorem zero_momentum_seed (event : N)
    (evt : event_data (measurement E)) (id : N) (ptc : particle) (w : world)
    (s : bool)
    (Hread : read_event_data E event = inr evt)
    (Hfirst : StdMap.begin (m_particle_map evt) = Some (id, ptc))
    (Hzero : norm E (momentum ptc) = S754_zero s) :
  exists qop_stddev rest,
    calls (fst (process_event E event w)) =
      calls w ++
      call_event_data event ::
      call_seed_generator
        [ mul E (to_scalar E lit_0_02f) (mm E);
          mul E (to_scalar E lit_0_02f) (mm E);
          to_scalar E lit_0_0085f;
          to_scalar E lit_0_0085f;
          qop_stddev;
          mul E (to_scalar E lit_1f) (ns E) ] ::
      rest /\
    qop_stddev =
      div E (mul E (to_scalar E lit_0_05f) (SFabs (charge ptc)))
        (S754_zero s) /\
    is_number qop_stddev = false /\
    In call_generate_truth_candidates rest.
Proof.
  destruct (process_event_seeded event evt id ptc w Hread Hfirst)
    as (rest & Hcalls & Hrest).
  unfold seed_stddevs in Hcalls. rewrite Hzero in Hcalls.
  eexists. exists rest. split; [exact Hcalls|]. split; [reflexivity|].
  split; [apply div_by_zero_not_number|].
  destruct Hrest as [-> | ->]; now left.
Qed.

End PipelineFacts.

Lemma stub_particle_ltb_irrefl a : stub_particle_ltb a a = false.
Proof. apply N.ltb_irrefl. Qed.

Lemma stub_particle_ltb_trans a b c :
  stub_particle_ltb a b = true -> stub_particle_ltb b c = true ->
  stub_particle_ltb a c = true.
Proof. unfold stub_particle_ltb. rewrite !N.ltb_lt. lia. Qed.

Lemma stub_particle_ltb_cotrans a b c :
  stub_particle_ltb a b = true ->
  stub_particle_ltb a c = true \/ stub_particle_ltb c b = true.
Proof. unfold stub_particle_ltb. rewrite !N.ltb_lt. lia. Qed.

Lemma seed_standard_deviations_witness :
  read_event_data oblique_setup 0 = inr (one_particle_event oblique) /\
  StdMap.begin (m_particle_map (one_particle_event oblique))
    = Some (7%N, oblique) /\
  exists rest,
    calls (fst (process_event oblique_setup 0 w0)) =
      calls w0 ++
      call_event_data 0 ::
      call_seed_generator
        [ mul oblique_setup (to_scalar oblique_setup lit_0_02f)
            (mm oblique_setup);
          mul oblique_setup (to_scalar oblique_setup lit_0_02f)
            (mm oblique_setup);
          to_scalar oblique_setup lit_0_0085f;
          to_scalar oblique_setup lit_0_0085f;
          div oblique_setup
            (mul oblique_setup (to_scalar oblique_setup lit_0_05f)
               (SFabs (charge oblique)))
            (norm oblique_setup (momentum oblique));
          mul oblique_setup (to_scalar oblique_setup lit_1f)
            (ns oblique_setup) ] ::
      rest /\
    (forall sd, ~ In (call_seed_generator sd) rest).
Proof.
  split; [reflexivity|]. split; [reflexivity|].
  apply (seed_standard_deviations oblique_setup 0
           (one_particle_event oblique) 7 oblique w0); reflexivity.
Defined.

(** The stream brings [muon_plus] first, yet the first entry of the map
    is [muon_minus], and the truth q/p written is -1 where the particle
    met first gives +1. *)
Lemma first_seen_order_refuted :
  first_seen [muon_plus; muon_minus] = Some muon_plus /\
  StdMap.begin (count_contributions stub_particle_ltb [muon_plus; muon_minus])
    = Some (muon_minus, 1%N) /\
  option_map fst
    (StdMap.begin
       (count_contributions stub_particle_ltb [muon_plus; muon_minus]))
    <> first_seen [muon_plus; muon_minus] /\
  (exists row,
     residual_file
       (fst (process_track shared_setup shared_hit_event 0 0 beam_track w0))
       = [csv_row row] /\
     truth_qop row = f32 (-1) 0 /\
     truth_qop row <>
       div shared_setup (charge muon_plus) (norm shared_setup (vec 1 0 0))).
Proof.
  split; [reflexivity|]. split; [vm_compute; reflexivity|].
  split; [vm_compute; discriminate|].
  eexists. split; [vm_compute; reflexivity|].
  split; [vm_compute; reflexivity | vm_compute; discriminate].
Qed.

Lemma truth_quantities_witness :
  (forall a, particle_ltb shared_setup a a = false) /\
  items beam_track =
    stub_fit 10 one one (S754_infinity false) ::
    [stub_fit 20 one one (S754_infinity false)] /\
  StdMap.find (measurement_ltb shared_setup) 10%N
    (m_meas_to_param_map shared_hit_event) = Some (vec 10 0 0, vec 1 0 0) /\
  StdMap.find (measurement_ltb shared_setup) 10%N
    (m_meas_to_ptc_map shared_hit_event) =
    Some (count_contributions (particle_ltb shared_setup)
            [muon_plus; muon_minus]) /\
  [muon_plus; muon_minus] <> [] /\
  exists ptc cnt row,
    StdMap.begin (count_contributions (particle_ltb shared_setup)
                    [muon_plus; muon_minus]) = Some (ptc, cnt) /\
    In ptc [muon_plus; muon_minus] /\
    (forall q, In q [muon_plus; muon_minus] ->
               particle_ltb shared_setup q ptc = false) /\
    residual_file
      (fst (process_track shared_setup shared_hit_event 0 0 beam_track w0)) =
      residual_file w0 ++ [csv_row row] /\
    truth_qop row =
      div shared_setup (charge ptc) (norm shared_setup (vec 1 0 0)) /\
    truth_qopT row =
      div shared_setup (charge ptc) (perp shared_setup (vec 1 0 0)) /\
    truth_qopz row = div shared_setup (charge ptc) (v2 (vec 1 0 0)).
Proof.
  split; [exact stub_particle_ltb_irrefl|]. split; [reflexivity|].
  split; [reflexivity|]. split; [reflexivity|]. split; [discriminate|].
  apply (truth_quantities shared_setup shared_hit_event 0 0 beam_track
           (stub_fit 10 one one (S754_infinity false))
           [stub_fit 20 one one (S754_infinity false)]
           (vec 10 0 0, vec 1 0 0) [muon_plus; muon_minus] w0).
  - exact stub_particle_ltb_irrefl.
  - exact stub_particle_ltb_trans.
  - exact stub_particle_ltb_cotrans.
  - reflexivity.
  - reflexivity.
  - reflexivity.
  - discriminate.
Defined.

(** The fit triple equals the truth triple, and the residual written for
    q/p-longitudinal is infinity - infinity, that is NaN, not zero. *)
Lemma equal_triples_residual_nan :
  residual_file
    (fst (process_track beam_setup (one_particle_event muon_plus) 0 0
            beam_track w0)) = [csv_row beam_row] /\
  (fit_qop beam_row, fit_qopT beam_row, fit_qopz beam_row) =
  (truth_qop beam_row, truth_qopT beam_row, truth_qopz beam_row) /\
  qopz_residual beam_row = S754_nan /\
  qopz_residual beam_row <> S754_zero false.
Proof.
  split; [vm_compute; reflexivity|]. split; [reflexivity|].
  split; [reflexivity | discriminate].
Qed.

Lemma residual_row_algebra_witness :
  items oblique_track =
    stub_fit 10 (SFdiv 24 128 one (f32 5 0)) (SFdiv 24 128 one (f32 3 0))
      (SFdiv 24 128 one (f32 4 0)) ::
    [stub_fit 20 (SFdiv 24 128 one (f32 5 0)) (SFdiv 24 128 one (f32 3 0))
       (SFdiv 24 128 one (f32 4 0))] /\
  StdMap.find (measurement_ltb oblique_setup) 10%N
    (m_meas_to_param_map (one_particle_event oblique))
    = Some (vec 10 0 0, vec 3 0 4) /\
  StdMap.find (measurement_ltb oblique_setup) 10%N
    (m_meas_to_ptc_map (one_particle_event oblique))
    = Some [(oblique, 1%N)] /\
  StdMap.begin [(oblique, 1%N)] = Some (oblique, 1%N) /\
  exists row,
    residual_file
      (fst (process_track oblique_setup (one_particle_event oblique) 0 0
              oblique_track w0)) = residual_file w0 ++ [csv_row row] /\
    (fit_qop row, fit_qopT row, fit_qopz row) =
      (SFdiv 24 128 one (f32 5 0), SFdiv 24 128 one (f32 3 0),
       SFdiv 24 128 one (f32 4 0)) /\
    (truth_qop row, truth_qopT row, truth_qopz row) =
      (div oblique_setup (charge oblique) (norm oblique_setup (vec 3 0 4)),
       div oblique_setup (charge oblique) (perp oblique_setup (vec 3 0 4)),
       div oblique_setup (charge oblique) (v2 (vec 3 0 4))) /\
    qop_residual row = sub oblique_setup (fit_qop row) (truth_qop row) /\
    qopT_residual row = sub oblique_setup (fit_qopT row) (truth_qopT row) /\
    qopz_residual row = sub oblique_setup (fit_qopz row) (truth_qopz row) /\
    (fit_qop row = truth_qop row -> is_number (fit_qop row) = true ->
     qop_residual row = S754_zero false) /\
    (fit_qopT row = truth_qopT row -> is_number (fit_qopT row) = true ->
     qopT_residual row = S754_zero false) /\
    (fit_qopz row = truth_qopz row -> is_number (fit_qopz row) = true ->
     qopz_residual row = S754_zero false).
Proof.
  split; [reflexivity|]. split; [reflexivity|]. split; [reflexivity|].
  split; [reflexivity|].
  apply (residual_row_algebra oblique_setup (one_particle_event oblique) 0 0
           oblique_track
           (stub_fit 10 (SFdiv 24 128 one (f32 5 0))
              (SFdiv 24 128 one (f32 3 0)) (SFdiv 24 128 one (f32 4 0)))
           [stub_fit 20 (SFdiv 24 128 one (f32 5 0))
              (SFdiv 24 128 one (f32 3 0)) (SFdiv 24 128 one (f32 4 0))]
           (vec 10 0 0, vec 3 0 4) [(oblique, 1%N)] oblique 1%N w0);
    reflexivity.
Defined.

Lemma empty_track_aborts_witness :
  items hollow_track = [] /\
  for_tracks hollow_setup (one_particle_event oblique) 0 0 [oblique_track] w0
    = (after_first_track, inr tt) /\
  process_track hollow_setup (one_particle_event oblique) 0
    (0 + N.of_nat (length [oblique_track])) hollow_track after_first_track =
    (after_first_track, inl (runtime_error "track states is empty")) /\
  for_tracks hollow_setup (one_particle_event oblique) 0 0
    ([oblique_track] ++ hollow_track :: [oblique_track]) w0 =
    (after_first_track, inl (runtime_error "track states is empty")) /\
  (forall (next : M unit),
     (for_tracks hollow_setup (one_particle_event oblique) 0 0
        ([oblique_track] ++ hollow_track :: [oblique_track]) ;;; next) w0 =
     (after_first_track, inl (runtime_error "track states is empty"))).
Proof.
  split; [reflexivity|]. split; [vm_compute; reflexivity|].
  apply (empty_track_aborts hollow_setup (one_particle_event oblique) 0 0
           [oblique_track] [oblique_track] hollow_track w0 after_first_track).
  - reflexivity.
  - vm_compute; reflexivity.
Defined.

Lemma empty_population_aborts_witness :
  ndebug empty_setup = false /\
  read_event_data empty_setup 4 = inr empty_event /\
  StdMap.size (m_particle_map empty_event) = 0%nat /\
  exists w',
    process_event empty_setup 4 w0 =
      (w', inl (assertion_failed "evt_data.m_particle_map.size() > 0u")) /\
    calls w' = calls w0 ++ [call_event_data 4] /\
    residual_file w' = residual_file w0 /\
    state_file w' = state_file w0 /\
    (forall n,
       for_events empty_setup (S n) 4 w0 =
       (w', inl (assertion_failed "evt_data.m_particle_map.size() > 0u"))).
Proof.
  split; [reflexivity|]. split; [reflexivity|]. split; [reflexivity|].
  apply (empty_population_aborts empty_setup 4 empty_event w0); reflexivity.
Defined.

Lemma empty_population_unchecked_witness :
  ndebug release_empty_setup = true /\
  read_event_data release_empty_setup 4 = inr empty_event /\
  StdMap.size (m_particle_map empty_event) = 0%nat /\
  (assert (ndebug release_empty_setup)
     (Nat.ltb 0 (StdMap.size (m_particle_map empty_event)))
     "evt_data.m_particle_map.size() > 0u" = ret tt /\
   StdMap.begin (m_particle_map empty_event) = None /\
   process_event release_empty_setup 4 w0 =
     (mk_world (residual_file w0) (state_file w0)
        (calls w0 ++ [call_event_data 4]),
      inl (undefined_behaviour "dereference of map::end()")) /\
   snd (process_event release_empty_setup 4 w0) <>
     inl (assertion_failed "evt_data.m_particle_map.size() > 0u")).
Proof.
  split; [reflexivity|]. split; [reflexivity|]. split; [reflexivity|].
  apply (empty_population_unchecked release_empty_setup 4 empty_event w0);
    reflexivity.
Defined.

(** The particle at rest has momentum magnitude +0; the event raises no
    error: the seed generator is constructed with the q/p standard
    deviation +infinity and the event runs to its end. *)
Lemma zero_momentum_not_rejected :
  norm rest_setup (momentum at_rest) = S754_zero false /\
  process_event rest_setup 0 w0 =
  (mk_world [] []
     [ call_event_data 0;
       call_seed_generator
         [ S754_finite false 10737418 (-29);
           S754_finite false 10737418 (-29);
           S754_finite false 9126806 (-30);
           S754_finite false 9126806 (-30);
           S754_infinity false;
           S754_finite false 8388608 (-23) ];
       call_generate_truth_candidates;
       call_host_fitting ],
   inr tt).
Proof. split; vm_compute; reflexivity. Qed.

Lemma zero_momentum_seed_witness :
  read_event_data rest_setup 0 = inr (one_particle_event at_rest) /\
  StdMap.begin (m_particle_map (one_particle_event at_rest))
    = Some (3%N, at_rest) /\
  norm rest_setup (momentum at_rest) = S754_zero false /\
  exists qop_stddev rest,
    calls (fst (process_event rest_setup 0 w0)) =
      calls w0 ++
      call_event_data 0 ::
      call_seed_generator
        [ mul rest_setup (to_scalar rest_setup lit_0_02f) (mm rest_setup);
          mul rest_setup (to_scalar rest_setup lit_0_02f) (mm rest_setup);
          to_scalar rest_setup lit_0_0085f;
          to_scalar rest_setup lit_0_0085f;
          qop_stddev;
          mul rest_setup (to_scalar rest_setup lit_1f) (ns rest_setup) ] ::
      rest /\
    qop_stddev =
      div rest_setup
        (mul rest_setup (to_scalar rest_setup lit_0_05f)
           (SFabs (charge at_rest)))
        (S754_zero false) /\
    is_number qop_stddev = false /\
    In call_generate_truth_candidates rest.
Proof.
  split; [reflexivity|]. split; [reflexivity|].
  split; [vm_compute; reflexivity|].
  apply (zero_momentum_seed rest_setup 0 (one_particle_event at_rest) 3
           at_rest w0 false).
  - reflexivity.
  - reflexivity.
  - vm_compute; reflexivity.
Defined.

(** A run that returns, returns [EXIT_SUCCESS]. *)
Lemma main_returns_success (E : externals) skip events w code :
  main E skip events = (w, inr code) -> code = EXIT_SUCCESS.
Proof.
  unfold main. intros H.
  apply bind_inr in H as (? & ? & _ & H).
  apply bind_inr in H as (? & ? & _ & H).
  apply bind_inr in H as (? & ? & _ & H).
  apply bind_inr in H as (? & ? & _ & H).
  unfold ret in H. now injection H as _ <-.
Qed.

(** *** Further properties of the pipeline *)

Section PipelineProperties.
Variable E : externals.

(** A track that is processed without error has a first state known to
    both maps, and leaves one residual row and its position rows. *)
Lemma process_track_success evt event i trk w w' :
  process_track E evt event i trk w = (w', inr tt) ->
  exists st0 (param : point3 * vector3) ptc,
    hd_error (items trk) = Some st0 /\
    w' = mk_world
           (residual_file w ++
            [csv_row (residual_row_of E st0 (snd param) ptc)])
           (state_file w ++ state_rows E event i (items trk))
           (calls w).
Proof.
  unfold process_track.
  destruct (items trk) as [|st0 more] eqn:Hitems; [discriminate|].
  cbn [length Nat.eqb nth_error]. unfold bind, map_at.
  destruct (StdMap.find _ _ (m_meas_to_param_map evt)) as [param|];
    [|discriminate].
  unfold ret at 1.
  destruct (StdMap.find _ _ (m_meas_to_ptc_map evt)) as [c|]; [|discriminate].
  unfold ret at 1. unfold deref_begin.
  destruct (StdMap.begin c) as [[ptc cnt]|]; [|discriminate].
  unfold ret at 1. unfold write_residual. rewrite for_each_write_state.
  cbn [residual_file state_file calls fst]. intros [= <-].
  exists st0, param, ptc. split; reflexivity.
Qed.

(** X6: a track whose first state sits on a measurement that is missing
    from the measurement-to-momentum map or from the
    measurement-to-particles map ends in [std::out_of_range] from
    [map::at], before anything is written for it. *)
Theorem missing_measurement_throws (evt : event_data (measurement E))
    (event i : N) (trk : fitted_track (track_state E))
    (st0 : track_state E) (more : list (track_state E)) (w : world)
    (Hitems : items trk = st0 :: more)
    (Hmissing :
       StdMap.find (measurement_ltb E) (get_measurement E st0)
         (m_meas_to_param_map evt) = None \/
       StdMap.find (measurement_ltb E) (get_measurement E st0)
         (m_meas_to_ptc_map evt) = None) :
  process_track E evt event i trk w = (w, inl (out_of_range "map::at")).
Proof.
  unfold process_track. rewrite Hitems. cbn [length Nat.eqb nth_error].
  unfold bind, map_at.
  destruct (StdMap.find _ _ (m_meas_to_param_map evt)) as [param|] eqn:Hp;
    [|reflexivity].
  destruct Hmissing as [Hm|Hm]; [discriminate|].
  unfold ret at 1. rewrite Hm. reflexivity.
Qed.

(** X7: when the loop over the fitted tracks ends without error it has
    written one residual row per track, in track order, each with the fit
    triple of the first state of its track and the differences
    fit - truth, and the position rows of the tracks in track order,
    numbered from the first index on; it has called no collaborator. *)
Theorem for_tracks_rows (evt : event_data (measurement E)) (event : N)
    (tracks : list (fitted_track (track_state E))) :
  forall (i : N) (w w' : world)
    (Hrun : for_tracks E evt event i tracks w = (w', inr tt)),
  exists rows,
    residual_file w' = residual_file w ++ map csv_row rows /\
    Forall2 (row_of_track E) tracks rows /\
    state_file w' = state_file w ++ numbered_state_rows E event i tracks /\
    calls w' = calls w.
Proof.
  induction tracks as [|trk tracks IH]; intros i w w' Hrun;
    cbn [for_tracks] in Hrun.
  - unfold ret in Hrun. injection Hrun as <-. exists [].
    cbn [map numbered_state_rows]. rewrite !app_nil_r.
    repeat split. constructor.
  - apply bind_inr in Hrun as ([] & w1 & Htrk & Hrest).
    apply process_track_success in Htrk as (st0 & param & ptc & Hhd & ->).
    apply IH in Hrest as (rows & Hres & Hall & Hst & Hcalls).
    cbn [residual_file state_file calls] in *.
    exists (residual_row_of E st0 (snd param) ptc :: rows).
    cbn [map numbered_state_rows]. rewrite Hres, Hst, Hcalls, <- !app_assoc.
    repeat split. constructor; [|exact Hall].
    exists st0. repeat split. exact Hhd.
Qed.

(** X8: an exception thrown by the loader, by the builder of the truth
    candidates or by the fitter ends the event with that very exception,
    and the event writes nothing to either file. *)
Theorem collaborator_exception_propagates (event : N) (e : error)
    (w : world) (Hthrows : collaborator_throws E event e) :
  snd (process_event E event w) = inl e /\
  residual_file (fst (process_event E event w)) = residual_file w /\
  state_file (fst (process_event E event w)) = state_file w.
Proof.
  assert (Hsize : forall (evt : event_data (measurement E)) id ptc,
            StdMap.begin (m_particle_map evt) = Some (id, ptc) ->
            Nat.ltb 0 (StdMap.size (m_particle_map evt)) = true).
  { intros evt id ptc H. destruct (m_particle_map evt);
      [discriminate | reflexivity]. }
  assert (Hrun : exists cs,
            process_event E event w =
            (mk_world (residual_file w) (state_file w) (calls w ++ cs),
             inl e)).
  { unfold process_event.
    unfold bind at 1. unfold log at 1. unfold bind at 1. unfold lift at 1.
    destruct Hthrows as [Hread | evt id ptc Hread Hbegin Hgen
                        | evt id ptc cands Hread Hbegin Hgen Hfit];
      rewrite Hread; [eexists; reflexivity| |];
      unfold bind at 1; rewrite (Hsize evt id ptc Hbegin), assert_true;
      unfold ret at 1; unfold bind at 1;
      unfold deref_begin; rewrite Hbegin; unfold ret at 1; cbn [snd];
      unfold bind at 1, log at 1; unfold bind at 1, log at 1;
      unfold bind at 1, lift at 1; rewrite Hgen;
      cbn [residual_file state_file calls].
    - rewrite <- !app_assoc. eexists; reflexivity.
    - unfold bind at 1, log at 1. unfold bind at 1, lift at 1. rewrite Hfit.
      cbn [residual_file state_file calls].
      rewrite <- !app_assoc. eexists; reflexivity. }
  destruct Hrun as (cs & ->). repeat split.
Qed.


Lemma rows_appended_refl w : rows_appended w w.
Proof. exists [], []. cbn [map]. now rewrite !app_nil_r. Qed.

Lemma rows_appended_same w w' :
  residual_file w' = residual_file w -> state_file w' = state_file w ->
  rows_appended w w'.
Proof.
  intros Hr Hs. exists [], []. cbn [map]. now rewrite !app_nil_r.
Qed.

Lemma rows_appended_trans w1 w2 w3 :
  rows_appended w1 w2 -> rows_appended w2 w3 -> rows_appended w1 w3.
Proof.
  intros (rs & ss & Hr & Hs) (rs' & ss' & Hr' & Hs').
  exists (rs ++ rs'), (ss ++ ss').
  rewrite Hr', Hs', Hr, Hs, !map_app, <- !app_assoc. split; reflexivity.
Qed.

Lemma state_rows_are_rows event i (states : list (track_state E)) :
  exists ss, state_rows E event i states = map csv_row ss.
Proof.
  unfold state_rows. eexists. symmetry. apply map_map.
Qed.

Lemma process_track_appends evt event i trk w :
  rows_appended w (fst (process_track E evt event i trk w)).
Proof.
  unfold process_track.
  destruct (Nat.eqb (length (items trk)) 0); [apply rows_appended_refl|].
  destruct (nth_error (items trk) 0) as [st0|]; [|apply rows_appended_refl].
  unfold bind, map_at.
  destruct (StdMap.find _ _ (m_meas_to_param_map evt));
    [|apply rows_appended_refl].
  unfold ret at 1.
  destruct (StdMap.find _ _ (m_meas_to_ptc_map evt)) as [c|];
    [|apply rows_appended_refl].
  unfold ret at 1. unfold deref_begin.
  destruct (StdMap.begin c); [|apply rows_appended_refl].
  unfold ret at 1. unfold write_residual. rewrite for_each_write_state.
  cbn [fst residual_file state_file calls].
  destruct (state_rows_are_rows event i (items trk)) as (ss & ->).
  eexists [_], ss. split; reflexivity.
Qed.

Lemma for_tracks_appends evt event tracks : forall i w,
  rows_appended w (fst (for_tracks E evt event i tracks w)).
Proof.
  induction tracks as [|trk tracks IH]; intros i w; cbn [for_tracks].
  - apply rows_appended_refl.
  - unfold bind.
    pose proof (process_track_appends evt event i trk w) as Htrk.
    destruct (process_track E evt event i trk w) as [w1 [e|[]]];
      cbn [fst] in *; [exact Htrk|].
    eapply rows_appended_trans; [exact Htrk | apply IH].
Qed.

(** An event, whatever its outcome: only rows are appended to the files,
    and the loader is called once, first, for this event. *)
Lemma process_event_effect event w :
  rows_appended w (fst (process_event E event w)) /\
  exists cs,
    calls (fst (process_event E event w)) =
      calls w ++ call_event_data event :: cs /\
    events_of cs = [].
Proof.
  destruct (process_event E event w) as [w' r] eqn:Hrun. cbn [fst].
  unfold process_event in Hrun.
  unfold bind at 1 in Hrun. unfold log at 1 in Hrun.
  unfold bind at 1 in Hrun. unfold lift at 1 in Hrun.
  destruct (read_event_data E event) as [e|evt].
  { injection Hrun as <- _.
    split; [now apply rows_appended_same | now exists []]. }
  unfold bind at 1 in Hrun.
  match type of Hrun with
  | context [assert ?nd ?c ?expr ?w1] =>
      destruct (assert_cases nd c expr w1) as [Hassert|[e Hassert]];
        rewrite Hassert in Hrun
  end.
  2:{ injection Hrun as <- _.
      split; [now apply rows_appended_same | now exists []]. }
  unfold bind at 1 in Hrun.
  unfold deref_begin in Hrun.
  destruct (StdMap.begin (m_particle_map evt)) as [first|].
  2:{ injection Hrun as <- _.
      split; [now apply rows_appended_same | now exists []]. }
  unfold ret at 1 in Hrun.
  unfold bind at 1, log at 1 in Hrun. unfold bind at 1, log at 1 in Hrun.
  unfold bind at 1, lift at 1 in Hrun.
  cbn [residual_file state_file calls] in Hrun.
  destruct (generate_truth_candidates E evt _) as [e|cands].
  { injection Hrun as <- _. split; [now apply rows_appended_same|].
    cbn [calls]. rewrite <- !app_assoc.
    eexists. split; [reflexivity|reflexivity]. }
  unfold bind at 1, log at 1 in Hrun. unfold bind at 1, lift at 1 in Hrun.
  cbn [residual_file state_file calls] in Hrun.
  destruct (host_fitting E cands) as [e|tracks].
  { injection Hrun as <- _. split; [now apply rows_appended_same|].
    cbn [calls]. rewrite <- !app_assoc.
    eexists. split; [reflexivity|reflexivity]. }
  match type of Hrun with
  | for_tracks E evt event 0%N tracks ?w1 = _ =>
      pose proof (for_tracks_appends evt event tracks 0%N w1) as Happ;
      pose proof (for_tracks_calls E evt event tracks 0%N w1) as Hcalls
  end.
  rewrite Hrun in Happ, Hcalls. cbn [fst residual_file state_file calls] in *.
  split.
  - destruct Happ as (rs & ss & Hr & Hs). exists rs, ss.
    split; assumption.
  - rewrite Hcalls, <- !app_assoc.
    eexists. split; [reflexivity|reflexivity].
Qed.

Lemma events_of_app cs cs' : events_of (cs ++ cs') = events_of cs ++ events_of cs'.
Proof. apply flat_map_app. Qed.

Lemma event_range_succ first n :
  event_range first (S n) = first :: event_range (N.succ first) n.
Proof.
  unfold event_range. cbn [seq map]. rewrite N.add_0_r. f_equal.
  rewrite <- seq_shift, map_map. apply map_ext. intros k. lia.
Qed.

(** The loop over the events, whatever its outcome: only rows are
    appended, and the events loaded are the first [m] of the [n] asked
    for, in increasing order; all of them when the loop ends without
    error. *)
Lemma for_events_effect (n : nat) : forall event w,
  rows_appended w (fst (for_events E n event w)) /\
  exists m,
    (m <= n)%nat /\
    events_of (calls (fst (for_events E n event w))) =
      events_of (calls w) ++ event_range event m /\
    (forall u, snd (for_events E n event w) = inr u -> m = n).
Proof.
  induction n as [|n IH]; intros event w; cbn [for_events].
  - split; [apply rows_appended_refl|]. exists 0%nat.
    cbn. rewrite app_nil_r. repeat split. lia.
  - unfold bind.
    destruct (process_event_effect event w) as (Happ & cs & Hcalls & Hcs).
    destruct (process_event E event w) as [w1 [e|[]]]; cbn [fst snd] in *.
    + split; [exact Happ|]. exists 1%nat. split; [lia|]. split.
      * rewrite Hcalls, events_of_app. cbn [events_of flat_map].
        fold (events_of cs). rewrite Hcs. unfold event_range. cbn.
        now rewrite N.add_0_r.
      * discriminate.
    + destruct (IH (N.succ event) w1) as (Happ' & m & Hm & Hev & Hall).
      split; [eapply rows_appended_trans; eassumption|].
      exists (S m). split; [lia|]. split.
      * rewrite Hev, Hcalls, events_of_app. cbn [events_of flat_map].
        fold (events_of cs). rewrite Hcs, event_range_succ.
        cbn [app]. rewrite <- app_assoc. reflexivity.
      * intros u Hu. f_equal. now apply (Hall u).
Qed.

Lemma main_after_open skip events :
  read_inputs E = inr tt ->
  main E skip events =
  (for_events E (event_count skip events) skip ;;; ret EXIT_SUCCESS) opened.
Proof.
  intros Hin. unfold main. unfold bind at 1, lift at 1. rewrite Hin.
  reflexivity.
Qed.

Lemma main_fst skip events :
  read_inputs E = inr tt ->
  fst (main E skip events) =
  fst (for_events E (event_count skip events) skip opened).
Proof.
  intros Hin. rewrite (main_after_open skip events Hin). unfold bind.
  now destruct (for_events E (event_count skip events) skip opened)
    as [w1 [e|[]]].
Qed.

(** X9: when the inputs cannot be read nothing is logged or written and
    the run ends in that exception; otherwise, whatever happens later,
    each file starts with its header line and holds only rows after it:
    the header is written exactly once. *)
Theorem headers_written_once (skip events : N) :
  match read_inputs E with
  | inl e => main E skip events = (mk_world [] [] [], inl e)
  | inr _ =>
      exists rs ss,
        residual_file (fst (main E skip events)) =
          csv_header residual_header :: map csv_row rs /\
        state_file (fst (main E skip events)) =
          csv_header state_header :: map csv_row ss
  end.
Proof.
  destruct (read_inputs E) as [e|[]] eqn:Hin.
  - unfold main. unfold bind at 1, lift at 1. rewrite Hin. reflexivity.
  - rewrite (main_fst skip events Hin).
    destruct (for_events_effect (event_count skip events) skip opened)
      as ((rs & ss & Hr & Hs) & _).
    exists rs, ss. split; assumption.
Qed.

(** X10: the events are loaded in increasing order from [skip] on, none
    is loaded twice or skipped, and never more than asked for, whether
    the run returns or ends in an exception. *)
Theorem events_visited_in_order (skip events : N) :
  exists m,
    (m <= event_count skip events)%nat /\
    events_of (calls (fst (main E skip events))) = event_range skip m.
Proof.
  destruct (read_inputs E) as [e|[]] eqn:Hin.
  - exists 0%nat. split; [lia|].
    unfold main. unfold bind at 1, lift at 1. rewrite Hin. reflexivity.
  - rewrite (main_fst skip events Hin).
    destruct (for_events_effect (event_count skip events) skip opened)
      as (_ & m & Hm & Hev & _).
    exists m. split; assumption.
Qed.

(** X11: a run that returns has loaded exactly the events
    [skip], ..., [skip + events - 1] when [skip + events] does not
    exceed the range of [std::size_t]. *)
Theorem successful_run_visits_all (skip events : N) (w : world) (code : Z)
    (Hrun : main E skip events = (w, inr code))
    (Hrange : (skip + events < size_t_modulus)%N) :
  events_of (calls w) = event_range skip (N.to_nat events).
Proof.
  destruct (read_inputs E) as [e|[]] eqn:Hin.
  { unfold main in Hrun. unfold bind at 1, lift at 1 in Hrun.
    rewrite Hin in Hrun. discriminate. }
  rewrite (main_after_open skip events Hin) in Hrun.
  apply bind_inr in Hrun as (u & w4 & Hloop & Hret).
  unfold ret in Hret. injection Hret as <- _.
  destruct (for_events_effect (event_count skip events) skip opened)
    as (_ & m & _ & Hev & Hall).
  rewrite Hloop in Hev, Hall. cbn [fst snd] in *.
  rewrite Hev, (Hall u eq_refl). cbn [opened calls events_of flat_map app].
  f_equal. unfold event_count.
  rewrite N.mod_small by lia. f_equal. lia.
Qed.

Lemma for_events_app (k : nat) : forall m event w w1,
  for_events E k event w = (w1, inr tt) ->
  for_events E (k + m) event w =
  for_events E m (event + N.of_nat k) w1.
Proof.
  induction k as [|k IH]; intros m event w w1 Hk; cbn [for_events Nat.add] in *.
  - unfold ret in Hk. injection Hk as ->. now rewrite N.add_0_r.
  - apply bind_inr in Hk as ([] & w0 & Hev & Hrest).
    rewrite (bind_step _ _ _ _ _ Hev), (IH m _ _ _ Hrest). f_equal. lia.
Qed.

(** X12: the first event that fails ends the run: when the events before
    it were processed without error and it ends in an exception, [main]
    ends in that exception, with the files as that event left them; no
    later event is started and no exit code is returned. *)
Theorem first_failure_ends_run (skip events : N) (k : nat)
    (w1 w2 : world) (e : error)
    (Hinputs : read_inputs E = inr tt)
    (Hbefore : for_events E k skip opened = (w1, inr tt))
    (Hfails : process_event E (skip + N.of_nat k) w1 = (w2, inl e))
    (Hasked : (k < event_count skip events)%nat) :
  main E skip events = (w2, inl e).
Proof.
  rewrite (main_after_open skip events Hinputs). apply bind_inl.
  replace (event_count skip events)
    with (k + S (event_count skip events - S k))%nat by lia.
  rewrite (for_events_app k _ skip opened w1 Hbefore).
  cbn [for_events]. now apply bind_inl.
Qed.

Lemma binary_round_aux_opp prec emax s m e l :
  binary_round_aux prec emax (negb s) m e l =
  SFopp (binary_round_aux prec emax s m e l).
Proof.
  unfold binary_round_aux.
  destruct (shr_fexp prec emax m e l) as [mrs e'].
  destruct (shr_fexp prec emax _ e' loc_Exact) as [mrs2 e2].
  destruct (shr_m mrs2); [reflexivity | | reflexivity].
  now destruct (Z.leb e2 (emax - prec)).
Qed.

(** A quotient changes sign with its numerator, in every case of IEEE
    division (NaN stays NaN). *)
Lemma SFdiv_opp_l prec emax x y :
  SFdiv prec emax (SFopp x) y = SFopp (SFdiv prec emax x y).
Proof.
  destruct x as [sx|sx| |sx mx ex], y as [sy|sy| |sy my ey];
    cbn [SFopp SFdiv]; try reflexivity;
    try (destruct sx, sy; reflexivity).
  destruct (SFdiv_core_binary prec emax (Z.pos mx) ex (Z.pos my) ey)
    as [[mz ez] lz].
  replace (xorb (negb sx) sy) with (negb (xorb sx sy))
    by (destruct sx, sy; reflexivity).
  apply binary_round_aux_opp.
Qed.

Lemma SFabs_opp x : SFabs (SFopp x) = SFabs x.
Proof. now destruct x. Qed.

(** X13: the truth triple is odd in the charge: for a truth particle of
    opposite charge the three truth values written are the negated ones
    (NaN staying NaN), and the fit triple is the same. *)
Theorem truth_triple_charge_flip (st0 : track_state E)
    (global_mom : vector3) (ptc ptc' : particle)
    (Hflip : charge ptc' = SFopp (charge ptc)) :
  truth_qop (residual_row_of E st0 global_mom ptc') =
    SFopp (truth_qop (residual_row_of E st0 global_mom ptc)) /\
  truth_qopT (residual_row_of E st0 global_mom ptc') =
    SFopp (truth_qopT (residual_row_of E st0 global_mom ptc)) /\
  truth_qopz (residual_row_of E st0 global_mom ptc') =
    SFopp (truth_qopz (residual_row_of E st0 global_mom ptc)) /\
  (fit_qop (residual_row_of E st0 global_mom ptc'),
   fit_qopT (residual_row_of E st0 global_mom ptc'),
   fit_qopz (residual_row_of E st0 global_mom ptc')) =
  (fit_qop (residual_row_of E st0 global_mom ptc),
   fit_qopT (residual_row_of E st0 global_mom ptc),
   fit_qopz (residual_row_of E st0 global_mom ptc)).
Proof.
  unfold residual_row_of, div.
  cbn [truth_qop truth_qopT truth_qopz fit_qop fit_qopT fit_qopz].
  rewrite Hflip, !SFdiv_opp_l. repeat split.
Qed.

(** X14: the standard deviations of the seed do not depend on the sign of
    the charge of the truth particle. *)
Theorem seed_stddevs_charge_sign (truth_mom : vector3) (charge : scalar) :
  seed_stddevs E truth_mom (SFopp charge) = seed_stddevs E truth_mom charge.
Proof. unfold seed_stddevs. now rewrite SFabs_opp. Qed.

End PipelineProperties.

Lemma missing_measurement_throws_witness :
  items stray_track = stub_fit 99 one one one :: [] /\
  (StdMap.find (measurement_ltb oblique_setup) 99%N
     (m_meas_to_param_map (one_particle_event oblique)) = None \/
   StdMap.find (measurement_ltb oblique_setup) 99%N
     (m_meas_to_ptc_map (one_particle_event oblique)) = None) /\
  process_track oblique_setup (one_particle_event oblique) 0 0 stray_track w0
    = (w0, inl (out_of_range "map::at")).
Proof.
  split; [reflexivity|]. split; [left; reflexivity|].
  apply (missing_measurement_throws oblique_setup
           (one_particle_event oblique) 0 0 stray_track
           (stub_fit 99 one one one) [] w0);
    [reflexivity | left; reflexivity].
Defined.

Lemma for_tracks_rows_witness :
  for_tracks oblique_setup (one_particle_event oblique) 0 0
    [oblique_track; oblique_track] w0 = (after_two_tracks, inr tt) /\
  exists rows,
    residual_file after_two_tracks = residual_file w0 ++ map csv_row rows /\
    Forall2 (row_of_track oblique_setup) [oblique_track; oblique_track] rows /\
    state_file after_two_tracks =
      state_file w0 ++
      numbered_state_rows oblique_setup 0 0 [oblique_track; oblique_track] /\
    calls after_two_tracks = calls w0.
Proof.
  split; [vm_compute; reflexivity|].
  apply (for_tracks_rows oblique_setup (one_particle_event oblique) 0
           [oblique_track; oblique_track] 0 w0 after_two_tracks).
  vm_compute; reflexivity.
Defined.

Lemma collaborator_exception_propagates_witness :
  collaborator_throws broken_fitter_setup 0 (collaborator_error "fit") /\
  snd (process_event broken_fitter_setup 0 w0)
    = inl (collaborator_error "fit") /\
  residual_file (fst (process_event broken_fitter_setup 0 w0))
    = residual_file w0 /\
  state_file (fst (process_event broken_fitter_setup 0 w0)) = state_file w0.
Proof.
  assert (H : collaborator_throws broken_fitter_setup 0
                (collaborator_error "fit")).
  { apply (fitter_throws broken_fitter_setup 0 (collaborator_error "fit")
             (one_particle_event oblique) 7 oblique tt); reflexivity. }
  split; [exact H|].
  apply (collaborator_exception_propagates broken_fitter_setup 0
           (collaborator_error "fit") w0 H).
Defined.

Lemma successful_run_visits_all_witness :
  main oblique_setup 3 2 = (after_events_3_4, inr 0) /\
  (3 + 2 < size_t_modulus)%N /\
  events_of (calls after_events_3_4) = event_range 3 (N.to_nat 2).
Proof.
  split; [vm_compute; reflexivity|]. split; [reflexivity|].
  apply (successful_run_visits_all oblique_setup 3 2 after_events_3_4 0);
    [vm_compute; reflexivity | reflexivity].
Defined.

Lemma first_failure_ends_run_witness :
  read_inputs second_event_empty_setup = inr tt /\
  for_events second_event_empty_setup 1 0 opened = (after_event_0, inr tt) /\
  process_event second_event_empty_setup (0 + N.of_nat 1) after_event_0 =
    (after_event_1,
     inl (assertion_failed "evt_data.m_particle_map.size() > 0u")) /\
  (1 < event_count 0 3)%nat /\
  main second_event_empty_setup 0 3 =
    (after_event_1,
     inl (assertion_failed "evt_data.m_particle_map.size() > 0u")).
Proof.
  split; [reflexivity|]. split; [vm_compute; reflexivity|].
  split; [vm_compute; reflexivity|]. split; [vm_compute; lia|].
  apply (first_failure_ends_run second_event_empty_setup 0 3 1
           after_event_0 after_event_1
           (assertion_failed "evt_data.m_particle_map.size() > 0u"));
    [reflexivity | vm_compute; reflexivity | vm_compute; reflexivity
    | vm_compute; lia].
Defined.

Lemma truth_triple_charge_flip_witness :
  charge muon_minus = SFopp (charge muon_plus) /\
  truth_qop (residual_row_of beam_setup (stub_fit 10 one one one)
               (vec 3 0 4) muon_minus) =
    SFopp (truth_qop (residual_row_of beam_setup (stub_fit 10 one one one)
                        (vec 3 0 4) muon_plus)) /\
  truth_qopT (residual_row_of beam_setup (stub_fit 10 one one one)
                (vec 3 0 4) muon_minus) =
    SFopp (truth_qopT (residual_row_of beam_setup (stub_fit 10 one one one)
                         (vec 3 0 4) muon_plus)) /\
  truth_qopz (residual_row_of beam_setup (stub_fit 10 one one one)
                (vec 3 0 4) muon_minus) =
    SFopp (truth_qopz (residual_row_of beam_setup (stub_fit 10 one one one)
                         (vec 3 0 4) muon_plus)) /\
  (fit_qop (residual_row_of beam_setup (stub_fit 10 one one one)
              (vec 3 0 4) muon_minus),
   fit_qopT (residual_row_of beam_setup (stub_fit 10 one one one)
               (vec 3 0 4) muon_minus),
   fit_qopz (residual_row_of beam_setup (stub_fit 10 one one one)
               (vec 3 0 4) muon_minus)) =
  (fit_qop (residual_row_of beam_setup (stub_fit 10 one one one)
              (vec 3 0 4) muon_plus),
   fit_qopT (residual_row_of beam_setup (stub_fit 10 one one one)
               (vec 3 0 4) muon_plus),
   fit_qopz (residual_row_of beam_setup (stub_fit 10 one one one)
               (vec 3 0 4) muon_plus)).
Proof.
  split; [vm_compute; reflexivity|].
  apply (truth_triple_charge_flip beam_setup (stub_fit 10 one one one)
           (vec 3 0 4) muon_plus muon_minus).
  vm_compute; reflexivity.
Defined.

End TruthFitting.

(** ** telescope_simulation.cpp *)

Module TelescopeSimulation.

(** Positions of the 12 sensitive planes, in mm (lines 75-80). *)
Definition sensitive_positions : list Z :=
  [10; 20; 30; 60; 70; 80; 180; 190; 200; 230; 240; 250].

Section Main.
(** The collaborators: the telescope detector built from the plane
    positions, the simulation run (field reading included) and the writer
    of the detector file; the last two may throw. *)
Variable detector : Type.
Variable build_telescope_detector : list Z -> detector.
Variable run_simulation : detector -> TruthFitting.error + unit.
Variable write_detector : detector -> TruthFitting.error + unit.

(** [main]: the value returned, [return 1;] at line 184, or the exception
    that ended the run. *)
Definition main : TruthFitting.error + Z :=
  let det := build_telescope_detector sensitive_positions in
  match run_simulation det with
  | inl e => inl e
  | inr _ =>
      match write_detector det with
      | inl e => inl e
      | inr _ => inr 1
      end
  end.

End Main.

End TelescopeSimulation.

(** ** The sensitive planes and the magnet *)

(** The exact value of the double 35. *)
Definition thirty_five : Q := 4925812092436480 # 140737488355328.

Lemma near_plane_outside_x (p : Z) (q : Q) :
  In p TelescopeSimulation.sensitive_positions ->
  (Qabs (q - inject_Z p) < 10)%Q ->
  WriteBfield.inside_x q = false.
Proof.
  intros Hplane Hnear. apply Qabs_Qlt_condition in Hnear.
  unfold WriteBfield.inside_x.
  destruct (Qle_bool 40 q) eqn:H1, (Qle_bool q 50) eqn:H2,
           (Qle_bool 210 q) eqn:H3, (Qle_bool q 220) eqn:H4;
    try reflexivity; exfalso;
    repeat match goal with
           | H : Qle_bool _ _ = true |- _ => apply Qle_bool_iff in H
           | H : Qle_bool _ _ = false |- _ => clear H
           end;
    unfold TelescopeSimulation.sensitive_positions in Hplane;
    cbn [In] in Hplane;
    repeat (destruct Hplane as [<-|Hplane];
            [unfold inject_Z in Hnear; lra|]);
    exact Hplane.
Qed.

(** X15: the field map leaves the sensitive planes of the telescope in
    field-free space: [is_in_magnet] is false at every point whose x is a
    finite double less than 10 mm away from one of the twelve plane
    positions, whatever y and z. *)
Theorem planes_outside_magnet (p : Z) (xv yv zv : float) (q : Q)
    (Hplane : In p TelescopeSimulation.sensitive_positions)
    (Hvalue : WriteBfield.value xv = Some q)
    (Hnear : (Qabs (q - inject_Z p) < 10)%Q) :
  WriteBfield.is_in_magnet xv yv zv = false.
Proof.
  rewrite WriteBfield.is_in_magnet_exact, Hvalue.
  destruct (WriteBfield.value yv), (WriteBfield.value zv); try reflexivity.
  unfold WriteBfield.inside_magnet.
  now rewrite (near_plane_outside_x p q Hplane Hnear).
Qed.

Lemma planes_outside_magnet_witness :
  In 30 TelescopeSimulation.sensitive_positions /\
  WriteBfield.value 35%float = Some thirty_five /\
  (Qabs (thirty_five - inject_Z 30) < 10)%Q /\
  WriteBfield.is_in_magnet 35%float 0%float 0%float = false.
Proof.
  split; [right; right; left; reflexivity|].
  split; [vm_compute; reflexivity|]. split; [reflexivity|].
  apply (planes_outside_magnet 30 35%float 0%float 0%float thirty_five).
  - right; right; left; reflexivity.
  - vm_compute; reflexivity.
  - reflexivity.
Defined.

(** ** Exit status of the three programs *)

(** C2: the field-grid sampler and the telescope simulation return 1, not
    [EXIT_SUCCESS], when they run to their end; the truth-fitting program
    returns [EXIT_SUCCESS]. *)
Theorem exit_status_of_programs :
  (exists file, WriteBfield.main 313 = Some (file, 1)) /\
  (forall detector build run write code,
     TelescopeSimulation.main detector build run write = inr code ->
     code = 1) /\
  TelescopeSimulation.main unit (fun _ => tt) (fun _ => inr tt)
    (fun _ => inr tt) = inr 1 /\
  1 <> EXIT_SUCCESS /\
  (forall E skip events w code,
     TruthFitting.main E skip events = (w, inr code) ->
     code = EXIT_SUCCESS) /\
  snd (TruthFitting.main TruthFitting.oblique_setup 0 2) = inr EXIT_SUCCESS.
Proof.
  split.
  { exists WriteBfield.grid_lines. apply WriteBfield.main_run. lia. }
  split.
  { intros detector build run write code. unfold TelescopeSimulation.main.
    destruct (run _) as [e|[]]; [discriminate|].
    destruct (write _) as [e|[]]; [discriminate|]. now intros [= <-]. }
  split; [reflexivity|]. split; [discriminate|].
  split; [exact TruthFitting.main_returns_success|].
  vm_compute. reflexivity.
Qed.
